(** * The stock dashboard script [app.py]: a shallow embedding

  [app.py] is a single Streamlit script.  On every interaction it reads
  the widgets ([symbols], [start_date], [end_date]); if at least one
  symbol is selected it downloads one price frame per symbol, shows a
  preview, draws five charts, builds the "latest snapshot" table and
  offers it as CSV and PDF; otherwise it shows a warning.

  The embedding keeps the script's own layering:
  - [Py]: Python results (a value or a raised exception);
  - [Np]: the float64 scalar operations the script applies
    ([round(x, 2)], [int(x)]), on Rocq's binary64 floats;
  - [Pd]: the pandas operations it calls ([data[sym]], [.iloc[-1]],
    [.pct_change()], [.assign], [pd.concat], [.head], [pd.DataFrame],
    [.to_csv], [.encode]);
  - [App]: the script, statement by statement, over a store of its
    global variables and a log of what it shows.  *)

From Stdlib Require Import ZArith QArith Qround Floats Lia.
From Stdlib.Strings Require Import Ascii String Byte.
From stdpp Require Import gmap strings list pretty sorting.

Close Scope Q_scope.
Set Warnings "-inexact-float".

(* ===================================================================== *)
(** ** Python results *)
(* ===================================================================== *)

Module Py.

(** The exceptions the script can meet.  None is caught in [app.py]:
    a raised exception ends the run. *)
Inductive exn : Type :=
| IndexError                (* [.iloc[-1]] on a frame without rows *)
| KeyError (key : string)   (* [data[sym]] for an absent ticker *)
| ValueError                (* [int(nan)]; columns of unequal length *)
| OverflowError             (* [int(inf)] *)
| ProviderError.            (* [yf.download] itself failed *)

Inductive result (A : Type) : Type :=
| Ok (a : A)
| Raise (e : exn).
Arguments Ok {A} a.
Arguments Raise {A} e.

Definition bind {A B} (r : result A) (k : A → result B) : result B :=
  match r with
  | Ok a => k a
  | Raise e => Raise e
  end.

#[global] Instance result_ret : MRet result := λ A a, Ok a.
#[global] Instance result_bind : MBind result := λ A B k r, bind r k.

Definition is_ok {A} (r : result A) : bool :=
  match r with Ok _ => true | Raise _ => false end.

(** A [for] loop threading an accumulator, stopping at the first
    exception. *)
Fixpoint foldM {A S} (body : S → A → result S) (s : S) (xs : list A)
  : result S :=
  match xs with
  | [] => Ok s
  | x :: xs' => s' ← body s x; foldM body s' xs'
  end.

(** A list comprehension whose element expression may raise. *)
Fixpoint mapM {A B} (f : A → result B) (xs : list A) : result (list B) :=
  match xs with
  | [] => Ok []
  | x :: xs' => y ← f x; ys ← mapM f xs'; Ok (y :: ys)
  end.

End Py.

Import Py.

(* ===================================================================== *)
(** ** float64 scalars *)
(* ===================================================================== *)

Module Np.

Open Scope float_scope.

Definition two52 : float := 4503599627370496.

Definition copysign (t x : float) : float :=
  if get_sign x then - (abs t) else abs t.

(** C [rint] in the default rounding mode: round to the nearest
    integer, ties to even.  Below 2^52 in magnitude it adds and then
    subtracts 2^52 with the sign of [x] (the additions round to
    nearest-even), and restores the sign of a result of magnitude
    below one; from 2^52 on every finite double is an integer. *)
Definition rint (x : float) : float :=
  if abs x <? two52 then
    let c := if get_sign x then - two52 else two52 in
    let t := (c + x) - c in
    if abs x <? 1 then copysign t x else t
  else if is_finite x then x
  else x + x.

(** [10 ** n] as numpy's rounding builds it. *)
Fixpoint power_of_ten (n : nat) : float :=
  match n with
  | O => 1
  | S n' => power_of_ten n' * 10
  end.

(** [round(x, ndigits)] on a [numpy.float64], [ndigits >= 0]: scale,
    [rint], scale back. *)
Definition round (x : float) (ndigits : nat) : float :=
  rint (x * power_of_ten ndigits) / power_of_ten ndigits.

(** [int(x)] on a float: the integer part, towards zero; [nan] and the
    infinities raise. *)
Definition int (x : float) : result Z :=
  match Prim2SF x with
  | S754_nan => Raise ValueError
  | S754_infinity _ => Raise OverflowError
  | S754_zero _ => Ok 0%Z
  | S754_finite s m e =>
      let a := (if 0 <=? e then Z.pos m * 2 ^ e
                else Z.pos m / 2 ^ (- e))%Z in
      Ok (if s then - a else a)%Z
  end.

(** The exact rational value of a finite float. *)
Definition value (x : float) : option Q :=
  match Prim2SF x with
  | S754_zero _ => Some 0%Q
  | S754_finite s m e =>
      let n := (if s then Z.neg m else Z.pos m) in
      Some (if 0 <=? e then inject_Z (n * 2 ^ e)
            else Qmake n (Z.to_pos (2 ^ (- e))))%Z
  | _ => None
  end.

End Np.

(* ===================================================================== *)
(** ** pandas *)
(* ===================================================================== *)

Module Pd.

Open Scope float_scope.

(** One row of a price frame.  [Date] is the index value, a day as its
    ordinal number.  The row [.iloc[-1]] hands out is a Series of a
    single dtype, float64, so [Volume] reaches [int()] as a float. *)
Record DatedRecord : Type := {
  Date : Z;
  Open : float;
  High : float;
  Low : float;
  Close : float;
  Volume : float
}.

(** The frame of one ticker: its rows in the order the provider
    delivered them. *)
Abbreviation Frame := (list DatedRecord).

(** [data[sym]] on the frame [yf.download(..., group_by='ticker')]
    returns: the sub-frame of one ticker, [KeyError] for an absent one. *)
Definition getitem (data : gmap string Frame) (sym : string) : result Frame :=
  match data !! sym with
  | Some f => Ok f
  | None => Raise (KeyError sym)
  end.

(** [frame.index] *)
Definition index (f : Frame) : list Z := Date <$> f.

(** [frame[column]]: a column as the Series of its values. *)
Definition column (c : DatedRecord → float) (f : Frame) : list float := c <$> f.

(** [frame.iloc[-1]]: the row at the last position, [IndexError] when
    there is none. *)
Definition iloc_last (f : Frame) : result DatedRecord :=
  match last f with
  | Some r => Ok r
  | None => Raise IndexError
  end.

(** [series.shift(1)]: every value moves one position down, the first
    position is filled with [nan], the length stays. *)
Definition shift (xs : list float) : list float :=
  take (length xs) (nan :: xs).

(** Forward fill: a [nan] takes the last value before it that is not one;
    leading [nan]s stay. *)
Fixpoint ffill_from (prev : float) (xs : list float) : list float :=
  match xs with
  | [] => []
  | x :: xs' =>
      if is_nan x then prev :: ffill_from prev xs'
      else x :: ffill_from x xs'
  end.

Definition ffill (xs : list float) : list float := ffill_from nan xs.

(** [series.pct_change()]: [data / data.shift(1) - 1], elementwise.
    Up to pandas 2 the default [fill_method='pad'] forward-fills [data]
    first ([pad = true]); from pandas 3 it does not ([pad = false]). *)
Definition pct_change (pad : bool) (xs : list float) : list float :=
  let data := if pad then ffill xs else xs in
  zip_with (λ cur prev, cur / prev - 1) data (shift data).

(** [series * k] *)
Definition smul (xs : list float) (k : float) : list float :=
  (λ v, v * k) <$> xs.

(** [frame.assign(Symbol=sym)]: a new frame with one more column. *)
Definition assign_Symbol (f : Frame) (sym : string)
  : list (DatedRecord * string) :=
  (λ r, (r, sym)) <$> f.

(** [frame.head(n)] *)
Definition head {A} (n : nat) (rows : list A) : list A := take n rows.

(** *** Text *)

(** A [str] of the model is a [string] whose characters are the code
    points below 256; [bytes] are lists of [byte]. *)

(** The double quote, the comma and the line feed.  The line feed is
    the line terminator [to_csv] writes ([os.linesep] on a POSIX
    system). *)
Definition dquote : ascii := ascii_of_nat 34.
Definition comma : ascii := ascii_of_nat 44.
Definition LF : ascii := ascii_of_nat 10.

Definition is_special (c : ascii) : bool :=
  bool_decide (c = comma) || bool_decide (c = dquote)
  || bool_decide (c = LF).

(** The csv writer's [QUOTE_MINIMAL]: a field holding the delimiter, the
    quote character or a character of the line terminator is put in
    quotes, its quote characters doubled. *)
Fixpoint needs_quote (s : string) : bool :=
  match s with
  | EmptyString => false
  | String c s' => is_special c || needs_quote s'
  end.

Fixpoint escape (s : string) : string :=
  match s with
  | EmptyString => EmptyString
  | String c s' =>
      if bool_decide (c = dquote) then String dquote (String dquote (escape s'))
      else String c (escape s')
  end.

Definition quote (s : string) : string :=
  if needs_quote s
  then String dquote (escape s +:+ String dquote EmptyString)
  else s.

(** One record of the file: the fields, comma separated, and the line
    terminator. *)
Fixpoint join_fields (fields : list string) : string :=
  match fields with
  | [] => EmptyString
  | [f] => quote f
  | f :: fs => quote f +:+ String comma (join_fields fs)
  end.

Definition csv_record (fields : list string) : string :=
  join_fields fields +:+ String LF EmptyString.

(** [str.encode('utf-8')] for code points below 256: one byte below
    128, else the two bytes [110xxxxx 10xxxxxx]. *)
Definition encode_char (c : ascii) : list byte :=
  let n := N_of_ascii c in
  if (n <? 128)%N then [byte_of_ascii c]
  else [byte_of_ascii (ascii_of_N (192 + n / 64));
        byte_of_ascii (ascii_of_N (128 + n mod 64))].

Fixpoint encode_utf8 (s : string) : list byte :=
  match s with
  | EmptyString => []
  | String c s' => encode_char c ++ encode_utf8 s'
  end.

End Pd.

Import Pd.

(* ===================================================================== *)
(** ** The script *)
(* ===================================================================== *)

Module App.

(** *** What the script builds *)

(** A [go.Scatter] trace as the script fills it ([mode='lines']). *)
Record Scatter : Type := {
  sc_x : list Z;
  sc_y : list float;
  sc_name : string;
  sc_stackgroup : option string
}.

(** A [go.Candlestick] trace. *)
Record Candlestick : Type := {
  cs_x : list Z;
  cs_open : list float;
  cs_high : list float;
  cs_low : list float;
  cs_close : list float;
  cs_name : string
}.

Inductive Trace : Type :=
| TScatter (s : Scatter)
| TCandlestick (c : Candlestick).

(** A figure: [fig.add_trace] appends to [fig_traces]. *)
Record Figure : Type := {
  fig_title : string;
  fig_xaxis_title : string;
  fig_yaxis_title : string;
  fig_traces : list Trace
}.

Definition add_trace (fig : list Trace) (t : Trace) : list Trace := fig ++ [t].

(** The dict [snapshot]: six lists, one per key, each grown by [append]. *)
Record Snapshot : Type := {
  snap_Symbol : list string;
  snap_Latest_Price : list float;
  snap_Opening_Price : list float;
  snap_High : list float;
  snap_Low : list float;
  snap_Volume : list Z
}.

Definition snapshot_init : Snapshot :=
  {| snap_Symbol := []; snap_Latest_Price := []; snap_Opening_Price := [];
     snap_High := []; snap_Low := []; snap_Volume := [] |}.

(** A row of [df_snapshot]. *)
Record SnapshotRow : Type := {
  row_Symbol : string;
  row_Latest_Price : float;
  row_Opening_Price : float;
  row_High : float;
  row_Low : float;
  row_Volume : Z
}.

(** The columns of [df_snapshot], in the order the keys were inserted in
    the dict. *)
Definition columns : list string :=
  ["Symbol"; "Latest Price"; "Opening Price"; "High"; "Low"; "Volume"]%string.

(** [pd.DataFrame(snapshot)]: the lists become the columns; lists of
    unequal length are a [ValueError]. *)
Fixpoint zip_rows (sy : list string) (lp op hi lo : list float) (vo : list Z)
  : list SnapshotRow :=
  match sy, lp, op, hi, lo, vo with
  | s :: sy', l :: lp', o :: op', h :: hi', w :: lo', v :: vo' =>
      {| row_Symbol := s; row_Latest_Price := l; row_Opening_Price := o;
         row_High := h; row_Low := w; row_Volume := v |}
      :: zip_rows sy' lp' op' hi' lo' vo'
  | _, _, _, _, _, _ => []
  end.

Definition same_length (s : Snapshot) : bool :=
  let n := length (snap_Symbol s) in
  bool_decide (length (snap_Latest_Price s) = n)
  && bool_decide (length (snap_Opening_Price s) = n)
  && bool_decide (length (snap_High s) = n)
  && bool_decide (length (snap_Low s) = n)
  && bool_decide (length (snap_Volume s) = n).

Definition DataFrame (s : Snapshot) : result (list SnapshotRow) :=
  if same_length s
  then Ok (zip_rows (snap_Symbol s) (snap_Latest_Price s)
             (snap_Opening_Price s) (snap_High s) (snap_Low s) (snap_Volume s))
  else Raise ValueError.

(** *** What the script shows *)

(** The calls of the run that leave the process, in order: the provider
    call and what is handed to Streamlit.  Titles, subheaders and the
    sidebar texts are constant and left out. *)
Inductive event : Type :=
| yf_download (symbols : list string) (start_date end_date : Z)
| st_success
| st_warning
| st_dataframe_preview (rows : list (DatedRecord * string))
| st_plotly_chart (fig : Figure)
| st_dataframe_snapshot (df : list SnapshotRow)
| download_button_csv (data : list byte)
| download_button_pdf (cells : list (list string)).

(** *** The store *)

Definition Figure_new : Figure :=
  {| fig_title := EmptyString; fig_xaxis_title := EmptyString;
     fig_yaxis_title := EmptyString; fig_traces := [] |}.

(** The global variables of the script. *)
Record Env : Type := {
  data : gmap string Frame;
  preview_data : list (DatedRecord * string);
  fig : Figure;
  pct : list float;
  fig_candle : Figure;
  snapshot : Snapshot;
  row : option DatedRecord;
  df_snapshot : list SnapshotRow;
  csv_data : list byte
}.

Record World : Type := {
  env : Env;
  log : list event
}.

Definition env_init : Env :=
  {| data := ∅; preview_data := []; fig := Figure_new; pct := [];
     fig_candle := Figure_new; snapshot := snapshot_init; row := None;
     df_snapshot := []; csv_data := [] |}.

Definition world_init : World := {| env := env_init; log := [] |}.

(** A statement: it may read and write the store, append to the log, and
    raise. *)
Definition M (A : Type) : Type := World → result A * World.

#[global] Instance M_ret : MRet M := λ A a w, (Ok a, w).
#[global] Instance M_bind : MBind M := λ A B k m w,
  match m w with
  | (Ok a, w') => k a w'
  | (Raise e, w') => (Raise e, w')
  end.

Definition emit (e : event) : M unit :=
  λ w, (Ok tt, {| env := env w; log := log w ++ [e] |}).

Definition lift {A} (r : result A) : M A := λ w, (r, w).

Definition read {A} (field : Env → A) : M A := λ w, (Ok (field (env w)), w).

Definition write (upd : Env → Env) : M unit :=
  λ w, (Ok tt, {| env := upd (env w); log := log w |}).

(** A [for] statement. *)
Fixpoint for_ {A} (xs : list A) (body : A → M unit) : M unit :=
  match xs with
  | [] => mret tt
  | x :: xs' => body x;; for_ xs' body
  end.

(** Assignments, one per variable. *)
Definition set_data (v : gmap string Frame) (e : Env) : Env :=
  {| data := v; preview_data := preview_data e; fig := fig e; pct := pct e;
     fig_candle := fig_candle e; snapshot := snapshot e; row := row e;
     df_snapshot := df_snapshot e; csv_data := csv_data e |}.

Definition set_preview_data (v : list (DatedRecord * string)) (e : Env) : Env :=
  {| data := data e; preview_data := v; fig := fig e; pct := pct e;
     fig_candle := fig_candle e; snapshot := snapshot e; row := row e;
     df_snapshot := df_snapshot e; csv_data := csv_data e |}.

Definition set_fig (v : Figure) (e : Env) : Env :=
  {| data := data e; preview_data := preview_data e; fig := v; pct := pct e;
     fig_candle := fig_candle e; snapshot := snapshot e; row := row e;
     df_snapshot := df_snapshot e; csv_data := csv_data e |}.

Definition set_pct (v : list float) (e : Env) : Env :=
  {| data := data e; preview_data := preview_data e; fig := fig e; pct := v;
     fig_candle := fig_candle e; snapshot := snapshot e; row := row e;
     df_snapshot := df_snapshot e; csv_data := csv_data e |}.

Definition set_fig_candle (v : Figure) (e : Env) : Env :=
  {| data := data e; preview_data := preview_data e; fig := fig e; pct := pct e;
     fig_candle := v; snapshot := snapshot e; row := row e;
     df_snapshot := df_snapshot e; csv_data := csv_data e |}.

Definition set_snapshot (v : Snapshot) (e : Env) : Env :=
  {| data := data e; preview_data := preview_data e; fig := fig e; pct := pct e;
     fig_candle := fig_candle e; snapshot := v; row := row e;
     df_snapshot := df_snapshot e; csv_data := csv_data e |}.

Definition set_row (v : DatedRecord) (e : Env) : Env :=
  {| data := data e; preview_data := preview_data e; fig := fig e; pct := pct e;
     fig_candle := fig_candle e; snapshot := snapshot e; row := Some v;
     df_snapshot := df_snapshot e; csv_data := csv_data e |}.

Definition set_df_snapshot (v : list SnapshotRow) (e : Env) : Env :=
  {| data := data e; preview_data := preview_data e; fig := fig e; pct := pct e;
     fig_candle := fig_candle e; snapshot := snapshot e; row := row e;
     df_snapshot := v; csv_data := csv_data e |}.

Definition set_csv_data (v : list byte) (e : Env) : Env :=
  {| data := data e; preview_data := preview_data e; fig := fig e; pct := pct e;
     fig_candle := fig_candle e; snapshot := snapshot e; row := row e;
     df_snapshot := df_snapshot e; csv_data := v |}.

(** [fig.add_trace(t)] and [fig.update_layout(...)] on a figure held in
    a variable. *)
Definition fig_add_trace (t : Trace) (f : Figure) : Figure :=
  {| fig_title := fig_title f; fig_xaxis_title := fig_xaxis_title f;
     fig_yaxis_title := fig_yaxis_title f;
     fig_traces := add_trace (fig_traces f) t |}.

Definition update_layout (title xaxis yaxis : string) (f : Figure) : Figure :=
  {| fig_title := title; fig_xaxis_title := xaxis; fig_yaxis_title := yaxis;
     fig_traces := fig_traces f |}.

(** [snapshot[key].append(v)], one per key. *)
Definition append_Symbol (v : string) (s : Snapshot) : Snapshot :=
  {| snap_Symbol := snap_Symbol s ++ [v];
     snap_Latest_Price := snap_Latest_Price s;
     snap_Opening_Price := snap_Opening_Price s;
     snap_High := snap_High s; snap_Low := snap_Low s;
     snap_Volume := snap_Volume s |}.

Definition append_Latest_Price (v : float) (s : Snapshot) : Snapshot :=
  {| snap_Symbol := snap_Symbol s;
     snap_Latest_Price := snap_Latest_Price s ++ [v];
     snap_Opening_Price := snap_Opening_Price s;
     snap_High := snap_High s; snap_Low := snap_Low s;
     snap_Volume := snap_Volume s |}.

Definition append_Opening_Price (v : float) (s : Snapshot) : Snapshot :=
  {| snap_Symbol := snap_Symbol s;
     snap_Latest_Price := snap_Latest_Price s;
     snap_Opening_Price := snap_Opening_Price s ++ [v];
     snap_High := snap_High s; snap_Low := snap_Low s;
     snap_Volume := snap_Volume s |}.

Definition append_High (v : float) (s : Snapshot) : Snapshot :=
  {| snap_Symbol := snap_Symbol s;
     snap_Latest_Price := snap_Latest_Price s;
     snap_Opening_Price := snap_Opening_Price s;
     snap_High := snap_High s ++ [v]; snap_Low := snap_Low s;
     snap_Volume := snap_Volume s |}.

Definition append_Low (v : float) (s : Snapshot) : Snapshot :=
  {| snap_Symbol := snap_Symbol s;
     snap_Latest_Price := snap_Latest_Price s;
     snap_Opening_Price := snap_Opening_Price s;
     snap_High := snap_High s; snap_Low := snap_Low s ++ [v];
     snap_Volume := snap_Volume s |}.

Definition append_Volume (v : Z) (s : Snapshot) : Snapshot :=
  {| snap_Symbol := snap_Symbol s;
     snap_Latest_Price := snap_Latest_Price s;
     snap_Opening_Price := snap_Opening_Price s;
     snap_High := snap_High s; snap_Low := snap_Low s;
     snap_Volume := snap_Volume s ++ [v] |}.

Definition snapshot_append (upd : Snapshot → Snapshot) : M unit :=
  write (λ e, set_snapshot (upd (snapshot e)) e).

(** *** The statements *)

Section script.

(** [yf.download(symbols, start=, end=, group_by='ticker',
    auto_adjust=True)]: the provider, outside the repository. *)
Variable download : list string → Z → Z → result (gmap string Frame).

(** How the installed pandas renders a float64 as text. *)
Variable float_repr : float → string.

(** Whether the installed pandas pads before [pct_change] (see
    [Pd.pct_change]). *)
Variable pad : bool.

(** The widgets' values: the selection in selection order, and the two
    dates. *)
Variable symbols : list string.
Variables start_date end_date : Z.

(** Lines 42-43. *)
Definition load : M unit :=
  emit (yf_download symbols start_date end_date);;
  d ← lift (download symbols start_date end_date);
  write (set_data d);;
  emit st_success.

(** Lines 46-48. *)
Definition show_raw_data : M unit :=
  d ← read data;
  frames ← lift (mapM (λ sym, f ← getitem d sym; Ok (assign_Symbol f sym))
                   symbols);
  write (set_preview_data (concat frames));;
  p ← read preview_data;
  emit (st_dataframe_preview (head 20 p)).

(** Lines 51-56; [fig] is local to the function. *)
Definition plot_line (title y_label : string) (col : DatedRecord → float)
  : M unit :=
  d ← read data;
  traces ← lift (foldM (λ fig sym,
                    f ← getitem d sym;
                    Ok (add_trace fig (TScatter
                          {| sc_x := index f; sc_y := column col f;
                             sc_name := sym; sc_stackgroup := None |})))
                  [] symbols);
  emit (st_plotly_chart
          {| fig_title := title; fig_xaxis_title := "Date";
             fig_yaxis_title := y_label; fig_traces := traces |}).

(** Lines 65-69. *)
Definition volume_chart : M unit :=
  write (set_fig Figure_new);;
  for_ symbols (λ sym,
    d ← read data;
    f ← lift (getitem d sym);
    write (λ e, set_fig (fig_add_trace (TScatter
             {| sc_x := index f; sc_y := column Volume f;
                sc_name := sym; sc_stackgroup := Some "one"%string |})
             (fig e)) e));;
  write (λ e, set_fig (update_layout "Volume Traded" "Date" "Volume" (fig e)) e);;
  g ← read fig;
  emit (st_plotly_chart g).

(** Line 74, right-hand side: [frame["Close"].pct_change() * 100]. *)
Definition pct_of (f : Frame) : list float :=
  smul (pct_change pad (column Close f)) 100.

(** Lines 72-77. *)
Definition pct_chart : M unit :=
  write (set_fig Figure_new);;
  for_ symbols (λ sym,
    d ← read data;
    f ← lift (getitem d sym);
    write (set_pct (pct_of f));;
    f' ← lift (getitem d sym);
    p ← read pct;
    write (λ e, set_fig (fig_add_trace (TScatter
             {| sc_x := index f'; sc_y := p;
                sc_name := sym; sc_stackgroup := None |})
             (fig e)) e));;
  write (λ e, set_fig (update_layout "Daily % Change" "Date" "Change (%)"
                         (fig e)) e);;
  g ← read fig;
  emit (st_plotly_chart g).

(** Lines 81-92. *)
Definition candlestick_chart : M unit :=
  write (set_fig_candle Figure_new);;
  for_ symbols (λ sym,
    d ← read data;
    f ← lift (getitem d sym);
    write (λ e, set_fig_candle (fig_add_trace (TCandlestick
             {| cs_x := index f; cs_open := column Open f;
                cs_high := column High f; cs_low := column Low f;
                cs_close := column Close f; cs_name := sym |})
             (fig_candle e)) e));;
  write (λ e, set_fig_candle (update_layout "Candlestick View" "Date" "Price"
                                (fig_candle e)) e);;
  g ← read fig_candle;
  emit (st_plotly_chart g).

(** Lines 105-112: one iteration. *)
Definition snapshot_body (sym : string) : M unit :=
  d ← read data;
  f ← lift (getitem d sym);
  r ← lift (iloc_last f);
  write (set_row r);;
  snapshot_append (append_Symbol sym);;
  snapshot_append (append_Latest_Price (Np.round (Close r) 2));;
  snapshot_append (append_Opening_Price (Np.round (Open r) 2));;
  snapshot_append (append_High (Np.round (High r) 2));;
  snapshot_append (append_Low (Np.round (Low r) 2));;
  v ← lift (Np.int (Volume r));
  snapshot_append (append_Volume v).

(** Lines 96-115. *)
Definition latest_snapshot : M unit :=
  write (set_snapshot snapshot_init);;
  for_ symbols snapshot_body;;
  s ← read snapshot;
  df ← lift (DataFrame s);
  write (set_df_snapshot df);;
  emit (st_dataframe_snapshot df).

(** [df_snapshot.to_csv(index=False)]: the header record, then one
    record per row; a [nan] is written as the empty field. *)
Definition csv_float (x : float) : string :=
  if is_nan x then EmptyString else float_repr x.

Definition csv_cells (r : SnapshotRow) : list string :=
  [row_Symbol r; csv_float (row_Latest_Price r);
   csv_float (row_Opening_Price r); csv_float (row_High r);
   csv_float (row_Low r); pretty (row_Volume r)].

Definition to_csv (df : list SnapshotRow) : string :=
  fold_right String.append EmptyString
    (csv_record <$> (columns :: (csv_cells <$> df))).

(** Lines 118-119. *)
Definition export_csv : M unit :=
  df ← read df_snapshot;
  write (set_csv_data (encode_utf8 (to_csv df)));;
  b ← read csv_data;
  emit (download_button_csv b).

(** Lines 132-151: the cells [add_table] draws, the header first. *)
Definition pdf_cells (r : SnapshotRow) : list string :=
  [row_Symbol r; float_repr (row_Latest_Price r);
   float_repr (row_Opening_Price r); float_repr (row_High r);
   float_repr (row_Low r); pretty (row_Volume r)].

Definition export_pdf : M unit :=
  df ← read df_snapshot;
  emit (download_button_pdf (columns :: (pdf_cells <$> df))).

(** Lines 46-151: the statements after the download. *)
Definition after_load : M unit :=
  show_raw_data;;
  plot_line "Opening Price" "Opening Price (USD)" Open;;
  plot_line "Closing Price" "Closing Price (USD)" Close;;
  volume_chart;;
  pct_chart;;
  candlestick_chart;;
  latest_snapshot;;
  export_csv;;
  export_pdf.

(** Lines 41-154. *)
Definition main : M unit :=
  match symbols with
  | [] => emit st_warning
  | _ :: _ => load;; after_load
  end.

(** One run of the script, from the empty store. *)
Definition run : result unit * World := main world_init.

(** *** What a run shows, as a function of the downloaded frames

    The definitions below do not run the statements: they give, for the
    frames [d] the provider returned, the values the statements are
    proved to compute (lemma [run_shown]). *)

Definition frame_of (d : gmap string Frame) (sym : string) : Frame :=
  default [] (d !! sym).

Definition preview_of (d : gmap string Frame) (sym : string)
  : result (list (DatedRecord * string)) :=
  f ← getitem d sym; Ok (assign_Symbol f sym).

Definition line_trace (col : DatedRecord → float) (d : gmap string Frame)
  (sym : string) : Trace :=
  TScatter {| sc_x := index (frame_of d sym);
              sc_y := column col (frame_of d sym);
              sc_name := sym; sc_stackgroup := None |}.

Definition volume_trace (d : gmap string Frame) (sym : string) : Trace :=
  TScatter {| sc_x := index (frame_of d sym);
              sc_y := column Volume (frame_of d sym);
              sc_name := sym; sc_stackgroup := Some "one"%string |}.

Definition pct_trace (d : gmap string Frame) (sym : string) : Trace :=
  TScatter {| sc_x := index (frame_of d sym);
              sc_y := pct_of (frame_of d sym);
              sc_name := sym; sc_stackgroup := None |}.

Definition candle_trace (d : gmap string Frame) (sym : string) : Trace :=
  let f := frame_of d sym in
  TCandlestick {| cs_x := index f; cs_open := column Open f;
                  cs_high := column High f; cs_low := column Low f;
                  cs_close := column Close f; cs_name := sym |}.

Definition chart (title y_label : string) (traces : list Trace) : event :=
  st_plotly_chart {| fig_title := title; fig_xaxis_title := "Date";
                     fig_yaxis_title := y_label; fig_traces := traces |}.

(** Everything shown up to and including the candlestick chart. *)
Definition charts_log (d : gmap string Frame) : list event :=
  [ yf_download symbols start_date end_date;
    st_success;
    st_dataframe_preview
      (head 20 (concat ((λ sym, assign_Symbol (frame_of d sym) sym) <$> symbols)));
    chart "Opening Price" "Opening Price (USD)" (line_trace Open d <$> symbols);
    chart "Closing Price" "Closing Price (USD)" (line_trace Close d <$> symbols);
    chart "Volume Traded" "Volume" (volume_trace d <$> symbols);
    chart "Daily % Change" "Change (%)" (pct_trace d <$> symbols);
    chart "Candlestick View" "Price" (candle_trace d <$> symbols) ].

(** The snapshot row of one symbol. *)
Definition row_of (d : gmap string Frame) (sym : string) : result SnapshotRow :=
  f ← getitem d sym;
  r ← iloc_last f;
  v ← Np.int (Volume r);
  Ok {| row_Symbol := sym;
        row_Latest_Price := Np.round (Close r) 2;
        row_Opening_Price := Np.round (Open r) 2;
        row_High := Np.round (High r) 2;
        row_Low := Np.round (Low r) 2;
        row_Volume := v |}.

(** The snapshot table and the two exports. *)
Definition export_log (rows : list SnapshotRow) : list event :=
  [ st_dataframe_snapshot rows;
    download_button_csv (encode_utf8 (to_csv rows));
    download_button_pdf (columns :: (pdf_cells <$> rows)) ].

(** The outcome of a run and what it has shown by then. *)
Definition shown : result unit * list event :=
  match symbols with
  | [] => (Ok tt, [st_warning])
  | _ :: _ =>
      match download symbols start_date end_date with
      | Raise e => (Raise e, [yf_download symbols start_date end_date])
      | Ok d =>
          match mapM (preview_of d) symbols with
          | Raise e =>
              (Raise e, [yf_download symbols start_date end_date; st_success])
          | Ok _ =>
              match mapM (row_of d) symbols with
              | Raise e => (Raise e, charts_log d)
              | Ok rows => (Ok tt, charts_log d ++ export_log rows)
              end
          end
      end
  end.

End script.

(** *** Notions the proofs use *)

(** Several traces added to a figure, several rows added to the dict. *)
Definition fig_add_traces (ts : list Trace) (f : Figure) : Figure :=
  {| fig_title := fig_title f; fig_xaxis_title := fig_xaxis_title f;
     fig_yaxis_title := fig_yaxis_title f;
     fig_traces := fig_traces f ++ ts |}.

Definition snapshot_extend (s : Snapshot) (rows : list SnapshotRow) : Snapshot :=
  {| snap_Symbol := snap_Symbol s ++ (row_Symbol <$> rows);
     snap_Latest_Price := snap_Latest_Price s ++ (row_Latest_Price <$> rows);
     snap_Opening_Price := snap_Opening_Price s ++ (row_Opening_Price <$> rows);
     snap_High := snap_High s ++ (row_High <$> rows);
     snap_Low := snap_Low s ++ (row_Low <$> rows);
     snap_Volume := snap_Volume s ++ (row_Volume <$> rows) |}.

(** Every ticker of [xs] is a key of the downloaded frame. *)
Definition all_present (d : gmap string Frame) (xs : list string) : Prop :=
  ∀ sym, sym ∈ xs → is_Some (d !! sym).

(** A statement keeps a relation between the world before and after it,
    whether it returns or raises. *)
Definition respects (R : relation World) {A} (m : M A) : Prop :=
  ∀ w, R w (snd (m w)).

(** Two such relations: [data] is the same; and nothing was shown
    besides. *)
Definition same_data : relation World :=
  λ w w', data (env w') = data (env w).

Definition silent : relation World :=
  λ w w', data (env w') = data (env w) ∧ log w' = log w.

(** The events of a kind in a log. *)
Definition downloads (l : list event) : list (list string * Z * Z) :=
  omap (λ e, match e with
             | yf_download s a b => Some (s, a, b)
             | _ => None
             end) l.

Definition snapshots (l : list event) : list (list SnapshotRow) :=
  omap (λ e, match e with
             | st_dataframe_snapshot df => Some df
             | _ => None
             end) l.

Definition csv_exports (l : list event) : list (list byte) :=
  omap (λ e, match e with
             | download_button_csv b => Some b
             | _ => None
             end) l.

Definition figures (l : list event) : list Figure :=
  omap (λ e, match e with
             | st_plotly_chart g => Some g
             | _ => None
             end) l.

(** The points a trace draws: [x[i]] against [y[i]]. *)
Definition points (s : Scatter) : list (Z * float) := zip (sc_x s) (sc_y s).


End App.

Import App.

(* ===================================================================== *)
(** ** The specification's wording, for comparison *)
(* ===================================================================== *)

Module Spec.

Open Scope float_scope.

(** Rounding half up to [ndigits] decimals: [floor(x * 10^n + 1/2) / 10^n]. *)
Definition floor (x : float) : float :=
  let r := Np.rint x in
  if x <? r then r - 1 else r.

Definition round_half_up (x : float) (ndigits : nat) : float :=
  floor (x * Np.power_of_ten ndigits + 0.5) / Np.power_of_ten ndigits.

(** The percent change as section 4.3 writes it. *)
Definition pct_formula (prev cur : float) : float :=
  (cur - prev) / prev * 100.

(** The derived series of section 4.3: one entry per record but the
    first, dated by the later record of each pair. *)
Fixpoint derive (f : Frame) : list (Z * float) :=
  match f with
  | r0 :: ((r1 :: _) as f') =>
      (Date r1, pct_formula (Close r0) (Close r1)) :: derive f'
  | _ => []
  end.

(** A reader of comma separated text with quoted fields (RFC 4180, line
    feed as the record end), to read back what the export wrote. *)
Inductive rstate : Type := Start | Unquoted | Quoted | QuoteSeen.

Definition snoc (s : string) (c : ascii) : string := s +:+ String c EmptyString.

Fixpoint reader (st : rstate) (fld : string) (rec : list string) (s : string)
  : list (list string) :=
  match s with
  | EmptyString =>
      match st, rec with
      | Start, [] => []
      | _, _ => [rec ++ [fld]]
      end
  | String c s' =>
      match st with
      | Quoted =>
          if bool_decide (c = dquote) then reader QuoteSeen fld rec s'
          else reader Quoted (snoc fld c) rec s'
      | QuoteSeen =>
          if bool_decide (c = dquote) then reader Quoted (snoc fld c) rec s'
          else if bool_decide (c = comma)
               then reader Start EmptyString (rec ++ [fld]) s'
          else if bool_decide (c = LF)
               then (rec ++ [fld]) :: reader Start EmptyString [] s'
          else reader Unquoted (snoc fld c) rec s'
      | Start =>
          if bool_decide (c = dquote) then reader Quoted EmptyString rec s'
          else if bool_decide (c = comma)
               then reader Start EmptyString (rec ++ [fld]) s'
          else if bool_decide (c = LF)
               then (rec ++ [fld]) :: reader Start EmptyString [] s'
          else reader Unquoted (snoc fld c) rec s'
      | Unquoted =>
          if bool_decide (c = comma)
          then reader Start EmptyString (rec ++ [fld]) s'
          else if bool_decide (c = LF)
               then (rec ++ [fld]) :: reader Start EmptyString [] s'
          else reader Unquoted (snoc fld c) rec s'
      end
  end.

Definition read_csv (s : string) : list (list string) :=
  reader Start EmptyString [] s.

(** A UTF-8 decoder for the code points a [str] of the model holds:
    one byte below 128, or a lead byte [0xC2]/[0xC3] and a continuation
    byte; anything else is rejected. *)
Fixpoint decode_utf8 (bs : list byte) : option string :=
  match bs with
  | [] => Some EmptyString
  | b :: bs' =>
      let n := Byte.to_N b in
      if (n <? 128)%N then String (ascii_of_byte b) <$> decode_utf8 bs'
      else if ((194 <=? n) && (n <? 196))%N then
        match bs' with
        | b2 :: bs'' =>
            let n2 := Byte.to_N b2 in
            if ((128 <=? n2) && (n2 <? 192))%N
            then String (ascii_of_N ((n - 192) * 64 + (n2 - 128)))
                   <$> decode_utf8 bs''
            else None
        | [] => None
        end
      else None
  end.

End Spec.

(* ===================================================================== *)
(** ** Sample requests *)
(* ===================================================================== *)

Module Sample.

Open Scope float_scope.

(** A trading day whose four prices are equal. *)
Definition day (d : Z) (price volume : float) : DatedRecord :=
  {| Date := d; Open := price; High := price; Low := price;
     Close := price; Volume := volume |}.

(** Three trading days with the closes 100, 110, 99. *)
Definition AAPL : Frame :=
  [day 738521 100 1000; day 738522 110 1100; day 738523 99 1200].


(** A last day with prices on a rounding tie and a fractional volume. *)
Definition ties : Frame :=
  [{| Date := 738521; Open := 0.375; High := 2.5; Low := -0.125;
      Close := 0.125; Volume := 1000.75 |}].

(** A close of zero followed by a positive close. *)
Definition zero_close : Frame :=
  [day 738521 0 1000; day 738522 5 1100].

Definition only_AAPL : gmap string Frame := {[ "AAPL"%string := AAPL ]}.

(** A ticker for which the provider has no rows. *)
Definition with_empty : gmap string Frame :=
  <[ "XXXX"%string := [] ]> only_AAPL.

Definition only_zero_close : gmap string Frame :=
  {[ "AAPL"%string := zero_close ]}.

Definition only_ties : gmap string Frame := {[ "AAPL"%string := ties ]}.


(** A provider that answers every request with the same frames. *)
Definition provider (d : gmap string Frame)
  : list string → Z → Z → result (gmap string Frame) :=
  λ _ _ _, Ok d.

(** A float rendering that keeps the integer part. *)
Definition render (x : float) : string :=
  match Np.int x with
  | Ok z => pretty z
  | Raise _ => "nan"%string
  end.

End Sample.

(* ===================================================================== *)
(** ** The widgets, the report class, and more to read off a log *)
(* ===================================================================== *)

Module Widgets.

(** Lines 20-24: the tickers the multiselect offers, and its default
    selection. *)
Definition options : list string :=
  ["AAPL"; "MSFT"; "GOOGL"; "AMZN"; "TSLA"; "META"; "NVDA"; "NFLX"; "IBM";
   "INTC"]%string.

Definition default : list string := ["AAPL"; "MSFT"]%string.

End Widgets.

Module Report.

Open Scope float_scope.

(** The calls the class [PDF] makes on the FPDF object it extends. *)
Inductive call : Type :=
| set_font (family style : string) (size : float)
| set_y (y : float)
| cell (w h : float) (txt : string) (border : Z) (ln : bool) (align : string)
| ln (h : float).

Section pdf.

(** [self.w], [self.l_margin], and [self.font_size] once the font is set
    to 10 points: attributes FPDF keeps. *)
Variables w l_margin font_size : float.

Variable float_repr : float → string.

(** Lines 123-125. *)
Definition header : list call :=
  [set_font "Arial" "B" 12;
   cell 200 10 "Stock Market Snapshot" 0 true "C"].

(** Lines 127-130; [page_no] is [self.page_no()]. *)
Definition footer (page_no : Z) : list call :=
  [set_y (-15);
   set_font "Arial" "I" 8;
   cell 0 10 ("Page " +:+ pretty page_no) 0 false "C"].





End pdf.



End Report.

Module Views.



Definition trace_name (t : Trace) : string :=
  match t with
  | TScatter s => sc_name s
  | TCandlestick c => cs_name c
  end.

(** A trace gives every x its y values. *)
Definition trace_aligned (t : Trace) : Prop :=
  match t with
  | TScatter s => length (sc_y s) = length (sc_x s)
  | TCandlestick c =>
      length (cs_open c) = length (cs_x c)
      ∧ length (cs_high c) = length (cs_x c)
      ∧ length (cs_low c) = length (cs_x c)
      ∧ length (cs_close c) = length (cs_x c)
  end.

(** A record written without the csv writer's quoting. *)
Fixpoint join_plain (fields : list string) : string :=
  match fields with
  | [] => EmptyString
  | [f] => f
  | f :: fs => f +:+ String comma (join_plain fs)
  end.

Definition plain_record (fields : list string) : string :=
  join_plain fields +:+ String LF EmptyString.


End Views.

Module Cases.

Open Scope float_scope.

(** The rows the provider gives an unknown ticker next to a known one:
    the dates of the known one, every value [nan]. *)
Definition all_nan : Frame :=
  [{| Date := 738521; Open := nan; High := nan; Low := nan; Close := nan;
      Volume := nan |}].

Definition with_nan_rows : gmap string Frame :=
  <[ "XXXX"%string := all_nan ]> Sample.only_AAPL.

(** A close missing on the second of three days. *)
Definition gap : Frame :=
  [Sample.day 738521 100 1000;
   {| Date := 738522; Open := 101; High := 102; Low := 99; Close := nan;
      Volume := 1100 |};
   Sample.day 738523 110 1200].

(** A last row whose close is missing while its volume is known. *)
Definition nan_close : Frame :=
  [Sample.day 738521 100 1000;
   {| Date := 738522; Open := 101; High := 102; Low := 99; Close := nan;
      Volume := 1100 |}].

Definition only_nan_close : gmap string Frame :=
  {[ "AAPL"%string := nan_close ]}.



(** A provider that fails. *)
Definition failing : list string → Z → Z → result (gmap string Frame) :=
  λ _ _ _, Raise ProviderError.

End Cases.

(* ===================================================================== *)
(** * Proofs *)
(* ===================================================================== *)

Import Sample.

(** ** float64 facts *)

Section float_facts.
Open Scope float_scope.

Ltac eval_const c :=
  let v := eval vm_compute in (Prim2SF c) in change (Prim2SF c) with v.

Lemma Prim2SF_zero_of_eqb z :
  (z =? 0) = true → ∃ s, Prim2SF z = S754_zero s.
Proof.
  rewrite FloatAxioms.eqb_spec. eval_const 0.
  destruct (Prim2SF z) as [s|s| |s m e]; try discriminate; eauto.
  all: destruct s; discriminate.
Qed.

Lemma div_zero_not_finite x z :
  (z =? 0) = true → is_finite ((x / z - 1) * 100) = false.
Proof.
  intros [s Hz]%Prim2SF_zero_of_eqb.
  unfold is_finite, is_nan, is_infinity.
  rewrite !FloatAxioms.eqb_spec, abs_spec, mul_spec, sub_spec, div_spec, Hz.
  eval_const 1. eval_const 100. eval_const infinity.
  destruct (Prim2SF x) as [[]|[]| |[] m e]; destruct s; reflexivity.
Qed.


Lemma not_nan_of_eqb_zero z : (z =? 0) = true → is_nan z = false.
Proof.
  intros [s Hz]%Prim2SF_zero_of_eqb. unfold is_nan.
  rewrite FloatAxioms.eqb_spec, Hz. reflexivity.
Qed.

Lemma div_zero_not_zero x z :
  (z =? 0) = true → is_zero ((x / z - 1) * 100) = false.
Proof.
  intros [s Hz]%Prim2SF_zero_of_eqb. unfold is_zero.
  rewrite !FloatAxioms.eqb_spec, mul_spec, sub_spec, div_spec, Hz.
  eval_const 1. eval_const 100. eval_const 0.
  destruct (Prim2SF x) as [[]|[]| |[] m e]; destruct s; reflexivity.
Qed.

Lemma div_nan x : x / nan = nan.
Proof.
  apply Prim2SF_inj. rewrite div_spec. eval_const nan.
  destruct (Prim2SF x); reflexivity.
Qed.

Lemma int_trunc x q :
  Np.value x = Some q →
  Np.int x = Ok (if Qle_bool 0 q then Qfloor q else Qceiling q).
Proof.
  unfold Np.value, Np.int.
  destruct (Prim2SF x) as [s|s| |s m e]; try discriminate.
  - intros [= <-]. reflexivity.
  - intros [= <-]. f_equal.
    destruct (Z.leb_spec 0 e) as [He|He].
    + destruct s.
      * assert (Z.neg m * 2 ^ e < 0)%Z by (pose proof (Z.pow_pos_nonneg 2 e); nia).
        replace (Qle_bool 0 (inject_Z (Z.neg m * 2 ^ e))) with false.
        2:{ symmetry. apply not_true_iff_false. rewrite Qle_bool_iff.
            unfold Qle; simpl. lia. }
        unfold Qceiling. rewrite <- (inject_Z_opp). rewrite Qfloor_Z. 
        change (Z.neg m) with (- Z.pos m)%Z. lia.
      * assert (0 < Z.pos m * 2 ^ e)%Z by (pose proof (Z.pow_pos_nonneg 2 e); nia).
        replace (Qle_bool 0 (inject_Z (Z.pos m * 2 ^ e))) with true.
        2:{ symmetry. rewrite Qle_bool_iff. unfold Qle; simpl. lia. }
        rewrite Qfloor_Z. done.
    + assert (Hp : (0 < 2 ^ (- e))%Z) by (apply Z.pow_pos_nonneg; lia).
      destruct s.
      * replace (Qle_bool 0 (Z.neg m # Z.to_pos (2 ^ (- e)))) with false.
        2:{ symmetry. apply not_true_iff_false. rewrite Qle_bool_iff.
            unfold Qle; simpl. lia. }
        unfold Qceiling, Qfloor, Qopp. simpl Qnum. simpl Qden.
        rewrite Z2Pos.id by done. done.
      * replace (Qle_bool 0 (Z.pos m # Z.to_pos (2 ^ (- e)))) with true.
        2:{ symmetry. rewrite Qle_bool_iff. unfold Qle; simpl. lia. }
        unfold Qfloor. rewrite Z2Pos.id by done. done.
Qed.

Lemma int_raises_iff x : Np.value x = None ↔ ∃ e, Np.int x = Raise e.
Proof.
  unfold Np.value, Np.int.
  destruct (Prim2SF x); split; try done; try eauto; intros [? ?]; done.
Qed.
End float_facts.

(** ** pandas facts *)

Section pandas_facts.
Open Scope float_scope.

Lemma length_shift xs : length (shift xs) = length xs.
Proof. unfold shift. rewrite length_take. simpl. lia. Qed.

Lemma lookup_shift_0 x xs : shift (x :: xs) !! 0%nat = Some nan.
Proof. reflexivity. Qed.

Lemma lookup_shift_S xs i x y :
  xs !! i = Some x → xs !! S i = Some y → shift xs !! S i = Some x.
Proof.
  intros Hx Hy. unfold shift.
  rewrite lookup_take_lt by (apply lookup_lt_Some in Hy; lia).
  done.
Qed.

Lemma length_ffill_from prev xs : length (ffill_from prev xs) = length xs.
Proof.
  revert prev. induction xs as [|x xs IH]; intros prev; simpl; [done|].
  destruct (is_nan x); simpl; by rewrite IH.
Qed.

Lemma lookup_ffill_from prev xs i x :
  xs !! i = Some x → is_nan x = false → ffill_from prev xs !! i = Some x.
Proof.
  revert prev i. induction xs as [|y xs IH]; intros prev i; [done|].
  destruct i as [|i]; simpl.
  - intros [= ->] ->. done.
  - intros Hx Hn. destruct (is_nan y); simpl; by apply IH.
Qed.

Lemma lookup_ffill_from_some prev xs i x :
  xs !! i = Some x → ∃ x', ffill_from prev xs !! i = Some x'.
Proof.
  intros Hx. apply lookup_lt_is_Some. rewrite length_ffill_from.
  by apply lookup_lt_Some in Hx.
Qed.

Lemma length_pct_change pad xs : length (pct_change pad xs) = length xs.
Proof.
  unfold pct_change. rewrite length_zip_with, length_shift.
  destruct pad; unfold ffill; rewrite ?length_ffill_from; lia.
Qed.

Lemma pct_change_0 pad x xs : pct_change pad (x :: xs) !! 0%nat = Some nan.
Proof.
  unfold pct_change.
  assert (∃ y ys, (if pad then ffill (x :: xs) else x :: xs) = y :: ys)
    as (y & ys & ->).
  { destruct pad; [|eauto]. unfold ffill. simpl. destruct (is_nan x); eauto. }
  simpl. f_equal. rewrite div_nan. reflexivity.
Qed.

Lemma pct_change_S pad xs i prev cur :
  xs !! i = Some prev → xs !! S i = Some cur →
  (pad = true → is_nan prev = false) →
  ∃ c, pct_change pad xs !! S i = Some (c / prev - 1)
       ∧ (is_nan cur = false ∨ pad = false → c = cur).
Proof.
  intros Hp Hc Hn. unfold pct_change. destruct pad.
  - destruct (lookup_ffill_from_some nan xs (S i) cur Hc) as [c Hc'].
    exists c. split.
    + rewrite lookup_zip_with. fold (ffill xs) in Hc'. rewrite Hc'. simpl.
      erewrite lookup_shift_S; [done| |done].
      apply lookup_ffill_from; auto.
    + intros [Hcn|?]; [|done].
      unfold ffill in Hc'. rewrite (lookup_ffill_from _ _ _ _ Hc Hcn) in Hc'.
      congruence.
  - exists cur. split; [|done].
    rewrite lookup_zip_with, Hc. simpl.
    erewrite lookup_shift_S; done.
Qed.

Lemma lookup_smul xs k i : smul xs k !! i = (λ v, v * k) <$> xs !! i.
Proof. unfold smul. apply list_lookup_fmap. Qed.

End pandas_facts.

(** ** Running statements *)

Lemma run_bind {A B} (m : M A) (k : A → M B) w :
  (m ≫= k) w = match m w with
               | (Ok a, w') => k a w'
               | (Raise e, w') => (Raise e, w')
               end.
Proof. reflexivity. Qed.

Lemma run_lift_bind {A B} (r : result A) (k : A → M B) w :
  (lift r ≫= k) w = match r with Ok a => k a w | Raise e => (Raise e, w) end.
Proof. by destruct r. Qed.

Lemma run_read_bind {A B} (field : Env → A) (k : A → M B) w :
  (read field ≫= k) w = k (field (env w)) w.
Proof. reflexivity. Qed.

Lemma run_write_bind {B} upd (k : unit → M B) w :
  (write upd ≫= k) w = k tt {| env := upd (env w); log := log w |}.
Proof. reflexivity. Qed.

Lemma run_emit_bind {B} e (k : unit → M B) w :
  (emit e ≫= k) w = k tt {| env := env w; log := log w ++ [e] |}.
Proof. reflexivity. Qed.

Create Rewrite HintDb mrun.
#[local] Hint Rewrite @run_lift_bind @run_read_bind @run_write_bind
  @run_emit_bind : mrun.

Ltac mrun := repeat (progress (autorewrite with mrun; simpl)).

Lemma mapM_ok {A B} (f : A → result B) (g : A → B) xs :
  (∀ x, x ∈ xs → f x = Ok (g x)) → mapM f xs = Ok (g <$> xs).
Proof.
  induction xs as [|x xs IH]; intros H; [done|].
  simpl. rewrite H by set_solver. simpl.
  rewrite IH by set_solver. done.
Qed.

Lemma mapM_ok_inv {A B} (f : A → result B) xs ys :
  mapM f xs = Ok ys → Forall2 (λ x y, f x = Ok y) xs ys.
Proof.
  revert ys. induction xs as [|x xs IH]; simpl; intros ys.
  - intros [= <-]. constructor.
  - destruct (f x) as [y|e] eqn:Hx; simpl; [|done].
    destruct (mapM f xs) as [ys'|e]; simpl; [|done].
    intros [= <-]. constructor; auto.
Qed.

(** ** Statements that keep a relation between the worlds *)

Section respects.
Context (R : relation World) `{!PreOrder R}.

Lemma respects_ret {A} (a : A) : respects R (mret a).
Proof. intros w. simpl. reflexivity. Qed.

Lemma respects_lift {A} (r : result A) : respects R (lift r).
Proof. intros w. simpl. reflexivity. Qed.

Lemma respects_read {A} (field : Env → A) : respects R (read field).
Proof. intros w. simpl. reflexivity. Qed.

Lemma respects_bind {A B} (m : M A) (k : A → M B) :
  respects R m → (∀ a, respects R (k a)) → respects R (m ≫= k).
Proof.
  intros Hm Hk w. rewrite run_bind.
  specialize (Hm w). destruct (m w) as [[a|e] w']; simpl in *; [|done].
  etrans; [done|]. apply Hk.
Qed.

Lemma respects_for {A} (xs : list A) (body : A → M unit) :
  (∀ x, respects R (body x)) → respects R (for_ xs body).
Proof.
  intros Hb. induction xs as [|x xs IH]; simpl.
  - apply respects_ret.
  - apply respects_bind; auto.
Qed.
End respects.

#[local] Instance same_data_preorder : PreOrder same_data.
Proof. split; [done|]. intros x y z H1 H2. unfold same_data in *. congruence. Qed.

Lemma same_data_emit e : respects same_data (emit e).
Proof. done. Qed.

Lemma same_data_write upd :
  (∀ e, data (upd e) = data e) → respects same_data (write upd).
Proof. intros H w. apply H. Qed.

Ltac frame_step :=
  first
    [ apply respects_bind; [typeclasses eauto| |intros ?]
    | apply respects_ret; typeclasses eauto
    | apply respects_lift; typeclasses eauto
    | apply respects_read; typeclasses eauto
    | apply respects_for; [typeclasses eauto|intros ?]
    | apply same_data_emit
    | apply same_data_write; intros ?; reflexivity
    | progress unfold snapshot_append ].

Ltac frame := repeat frame_step.

Lemma getitem_present d sym :
  is_Some (d !! sym) → getitem d sym = Ok (frame_of d sym).
Proof. intros [f Hf]. unfold getitem, frame_of. by rewrite Hf. Qed.

Lemma all_present_cons d x xs :
  all_present d (x :: xs) → is_Some (d !! x) ∧ all_present d xs.
Proof. intros H. split; [apply H; set_solver|]. intros s Hs. apply H. set_solver. Qed.

Lemma mapM_preview_present d xs :
  all_present d xs →
  mapM (preview_of d) xs = Ok ((λ sym, assign_Symbol (frame_of d sym) sym) <$> xs).
Proof.
  intros H. apply mapM_ok. intros x Hx. unfold preview_of.
  rewrite getitem_present by auto. done.
Qed.

Lemma mapM_preview_ok d xs frames :
  mapM (preview_of d) xs = Ok frames → all_present d xs.
Proof.
  intros H%mapM_ok_inv sym Hsym.
  induction H as [|x y xs ys Hx _ IH]; [set_solver|].
  apply elem_of_cons in Hsym as [->|Hsym]; [|auto].
  unfold preview_of, getitem in Hx. destruct (d !! x); [eauto|done].
Qed.

#[local] Arguments Pd.head : simpl never.

Section steps.
Context (download : list string → Z → Z → result (gmap string Frame))
  (float_repr : float → string) (pad : bool) (symbols : list string)
  (start_date end_date : Z).

Lemma show_raw_data_run w :
  show_raw_data symbols w =
  match mapM (preview_of (data (env w))) symbols with
  | Ok frames =>
      (Ok tt, {| env := set_preview_data (concat frames) (env w);
                 log := log w ++ [st_dataframe_preview (head 20 (concat frames))] |})
  | Raise e => (Raise e, w)
  end.
Proof.
  unfold show_raw_data. rewrite !run_bind. simpl.
  unfold preview_of. destruct (mapM _ symbols); reflexivity.
Qed.

Lemma line_traces_run col d xs acc :
  all_present d xs →
  foldM (λ fig sym,
           f ← getitem d sym;
           Ok (add_trace fig (TScatter
                 {| sc_x := index f; sc_y := column col f;
                    sc_name := sym; sc_stackgroup := None |})))
        acc xs
  = Ok (acc ++ (line_trace col d <$> xs)).
Proof.
  revert acc. induction xs as [|x xs IH]; intros acc Hp; simpl.
  - by rewrite app_nil_r.
  - apply all_present_cons in Hp as [Hx Hp].
    rewrite getitem_present by done. simpl.
    rewrite IH by done. unfold add_trace. by rewrite <- app_assoc.
Qed.

Lemma plot_line_run title y_label col w :
  all_present (data (env w)) symbols →
  plot_line symbols title y_label col w =
  (Ok tt, {| env := env w;
             log := log w ++ [chart title y_label
                                (line_trace col (data (env w)) <$> symbols)] |}).
Proof.
  intros Hp. unfold plot_line. rewrite !run_bind. simpl.
  rewrite line_traces_run by done. reflexivity.
Qed.

Lemma volume_loop_run xs w :
  all_present (data (env w)) xs →
  for_ xs (λ sym,
    d ← read data;
    f ← lift (getitem d sym);
    write (λ e, set_fig (fig_add_trace (TScatter
             {| sc_x := index f; sc_y := column Volume f;
                sc_name := sym; sc_stackgroup := Some "one"%string |})
             (fig e)) e)) w
  = (Ok tt, {| env := set_fig (fig_add_traces (volume_trace (data (env w)) <$> xs)
                                 (fig (env w))) (env w);
               log := log w |}).
Proof.
  revert w. induction xs as [|x xs IH]; intros w Hp; simpl.
  - destruct w as [[] ?]. unfold fig_add_traces, set_fig. simpl.
    rewrite app_nil_r. by destruct fig0.
  - apply all_present_cons in Hp as [Hx Hp].
    rewrite !run_bind. simpl. rewrite getitem_present by done. simpl.
    rewrite IH by done. simpl. f_equal. f_equal.
    unfold set_fig, fig_add_traces, fig_add_trace, add_trace. simpl.
    rewrite <- app_assoc. done.
Qed.


Lemma volume_chart_run w :
  all_present (data (env w)) symbols →
  volume_chart symbols w =
  (Ok tt, {| env := set_fig {| fig_title := "Volume Traded";
                               fig_xaxis_title := "Date";
                               fig_yaxis_title := "Volume";
                               fig_traces := volume_trace (data (env w)) <$> symbols |}
                      (env w);
             log := log w ++ [chart "Volume Traded" "Volume"
                                (volume_trace (data (env w)) <$> symbols)] |}).
Proof.
  intros Hp. unfold volume_chart.
  rewrite run_bind. simpl. rewrite run_bind.
  rewrite volume_loop_run by done. reflexivity.
Qed.

Lemma pct_loop_run xs w :
  all_present (data (env w)) xs →
  ∃ p,
  for_ xs (λ sym,
    d ← read data;
    f ← lift (getitem d sym);
    write (set_pct (pct_of pad f));;
    f' ← lift (getitem d sym);
    p ← read pct;
    write (λ e, set_fig (fig_add_trace (TScatter
             {| sc_x := index f'; sc_y := p;
                sc_name := sym; sc_stackgroup := None |})
             (fig e)) e)) w
  = (Ok tt, {| env := set_pct p
                        (set_fig (fig_add_traces (pct_trace pad (data (env w)) <$> xs)
                                    (fig (env w))) (env w));
               log := log w |}).
Proof.
  revert w. induction xs as [|x xs IH]; intros w Hp; simpl.
  - exists (pct (env w)). destruct w as [[] ?]. unfold fig_add_traces, set_fig. simpl.
    rewrite app_nil_r. by destruct fig0.
  - apply all_present_cons in Hp as [Hx Hp].
    rewrite !run_bind. simpl. rewrite getitem_present by done. simpl.
    edestruct IH as [p ->]; [|exists p]; [done|]. simpl. f_equal. f_equal.
    unfold set_fig, set_pct, fig_add_traces, fig_add_trace, add_trace. simpl.
    rewrite <- app_assoc. done.
Qed.

Lemma pct_chart_run w :
  all_present (data (env w)) symbols →
  ∃ e', data e' = data (env w) ∧
  pct_chart pad symbols w =
  (Ok tt, {| env := e';
             log := log w ++ [chart "Daily % Change" "Change (%)"
                                (pct_trace pad (data (env w)) <$> symbols)] |}).
Proof.
  intros Hp. unfold pct_chart.
  rewrite run_bind. simpl. rewrite run_bind.
  edestruct (pct_loop_run symbols) as [p ->]; [|eexists; split; [|reflexivity]]; done.
Qed.

Lemma candle_loop_run xs w :
  all_present (data (env w)) xs →
  for_ xs (λ sym,
    d ← read data;
    f ← lift (getitem d sym);
    write (λ e, set_fig_candle (fig_add_trace (TCandlestick
             {| cs_x := index f; cs_open := column Open f;
                cs_high := column High f; cs_low := column Low f;
                cs_close := column Close f; cs_name := sym |})
             (fig_candle e)) e)) w
  = (Ok tt, {| env := set_fig_candle
                        (fig_add_traces (candle_trace (data (env w)) <$> xs)
                           (fig_candle (env w))) (env w);
               log := log w |}).
Proof.
  revert w. induction xs as [|x xs IH]; intros w Hp; simpl.
  - destruct w as [[] ?]. unfold fig_add_traces, set_fig_candle. simpl.
    rewrite app_nil_r. by destruct fig_candle0.
  - apply all_present_cons in Hp as [Hx Hp].
    rewrite !run_bind. simpl. rewrite getitem_present by done. simpl.
    rewrite IH by done. simpl. f_equal. f_equal.
    unfold set_fig_candle, fig_add_traces, fig_add_trace, add_trace. simpl.
    rewrite <- app_assoc. done.
Qed.

Lemma candlestick_chart_run w :
  all_present (data (env w)) symbols →
  ∃ e', data e' = data (env w) ∧
  candlestick_chart symbols w =
  (Ok tt, {| env := e';
             log := log w ++ [chart "Candlestick View" "Price"
                                (candle_trace (data (env w)) <$> symbols)] |}).
Proof.
  intros Hp. unfold candlestick_chart.
  rewrite run_bind. simpl. rewrite run_bind.
  rewrite candle_loop_run by done. eexists; split; [|reflexivity]; done.
Qed.


Lemma snapshot_body_run sym w :
  match row_of (data (env w)) sym with
  | Ok r =>
      ∃ e', snapshot_body sym w = (Ok tt, {| env := e'; log := log w |})
            ∧ data e' = data (env w)
            ∧ snapshot e' = snapshot_extend (snapshot (env w)) [r]
  | Raise e => ∃ w', snapshot_body sym w = (Raise e, w') ∧ silent w w'
  end.
Proof.
  unfold row_of, snapshot_body, snapshot_append. mrun.
  destruct (getitem (data (env w)) sym) as [f|e]; simpl;
    [|exists w; repeat split; reflexivity].
  mrun.
  destruct (iloc_last f) as [r|e]; simpl;
    [|exists w; repeat split; reflexivity].
  mrun.
  destruct (Np.int (Volume r)) as [v|e]; simpl.
  - eexists. split; [reflexivity|]. split; reflexivity.
  - eexists. split; [reflexivity|]. split; reflexivity.
Qed.

Lemma snapshot_extend_app s rows rows' :
  snapshot_extend (snapshot_extend s rows) rows' = snapshot_extend s (rows ++ rows').
Proof.
  unfold snapshot_extend. simpl. rewrite !fmap_app, <- !app_assoc. done.
Qed.

Lemma snapshot_extend_nil s : snapshot_extend s [] = s.
Proof. destruct s. unfold snapshot_extend. simpl. by rewrite !app_nil_r. Qed.

Lemma snapshot_loop_run xs w :
  match mapM (row_of (data (env w))) xs with
  | Ok rows =>
      ∃ e', for_ xs snapshot_body w = (Ok tt, {| env := e'; log := log w |})
            ∧ data e' = data (env w)
            ∧ snapshot e' = snapshot_extend (snapshot (env w)) rows
  | Raise e => ∃ w', for_ xs snapshot_body w = (Raise e, w') ∧ silent w w'
  end.
Proof.
  revert w. induction xs as [|x xs IH]; intros w; simpl.
  - exists (env w). rewrite snapshot_extend_nil. by destruct w.
  - pose proof (snapshot_body_run x w) as Hb.
    destruct (row_of (data (env w)) x) as [r|e]; simpl.
    + destruct Hb as (e1 & Hb & Hd & Hs).
      rewrite run_bind, Hb.
      specialize (IH {| env := e1; log := log w |}). simpl in IH.
      rewrite Hd in IH.
      destruct (mapM (row_of (data (env w))) xs) as [rows|e]; simpl.
      * destruct IH as (e2 & -> & Hd2 & Hs2). exists e2.
        split; [done|]. split; [congruence|].
        rewrite Hs2, Hs, snapshot_extend_app. done.
      * destruct IH as (w' & -> & Hd2 & Hl2). exists w'.
        split; [done|]. split; simpl in *; congruence.
    + destruct Hb as (w' & Hb & Hsil). exists w'.
      rewrite run_bind, Hb. done.
Qed.

Lemma zip_rows_fmap rows :
  zip_rows (row_Symbol <$> rows) (row_Latest_Price <$> rows)
    (row_Opening_Price <$> rows) (row_High <$> rows) (row_Low <$> rows)
    (row_Volume <$> rows) = rows.
Proof.
  induction rows as [|[] rows IH]; simpl; [done|]. f_equal. exact IH.
Qed.

Lemma DataFrame_of_rows rows :
  DataFrame (snapshot_extend snapshot_init rows) = Ok rows.
Proof.
  unfold DataFrame, same_length, snapshot_extend, snapshot_init.
  cbn [snap_Symbol snap_Latest_Price snap_Opening_Price snap_High snap_Low
       snap_Volume app].
  rewrite !length_fmap, !bool_decide_eq_true_2 by done.
  cbn [andb]. by rewrite zip_rows_fmap.
Qed.

Lemma latest_snapshot_run w :
  match mapM (row_of (data (env w))) symbols with
  | Ok rows =>
      ∃ e', latest_snapshot symbols w
            = (Ok tt, {| env := e'; log := log w ++ [st_dataframe_snapshot rows] |})
            ∧ data e' = data (env w)
            ∧ df_snapshot e' = rows
  | Raise e => ∃ w', latest_snapshot symbols w = (Raise e, w') ∧ silent w w'
  end.
Proof.
  unfold latest_snapshot. rewrite run_bind. simpl. rewrite run_bind.
  pose proof (snapshot_loop_run symbols
                {| env := set_snapshot snapshot_init (env w); log := log w |}) as H.
  simpl in H.
  destruct (mapM (row_of (data (env w))) symbols) as [rows|e].
  - destruct H as (e1 & -> & Hd & Hs).
    rewrite !run_bind. simpl. rewrite Hs, DataFrame_of_rows. simpl.
    eexists. split; [reflexivity|]. split; [|reflexivity]. done.
  - destruct H as (w' & -> & Hsil). exists w'. done.
Qed.

Lemma export_csv_run w :
  export_csv float_repr w =
  (Ok tt, {| env := set_csv_data (encode_utf8 (to_csv float_repr (df_snapshot (env w))))
                      (env w);
             log := log w ++ [download_button_csv
                                (encode_utf8 (to_csv float_repr (df_snapshot (env w))))] |}).
Proof. reflexivity. Qed.

Lemma export_pdf_run w :
  export_pdf float_repr w =
  (Ok tt, {| env := env w;
             log := log w ++ [download_button_pdf
                                (columns :: (pdf_cells float_repr <$> df_snapshot (env w)))] |}).
Proof. reflexivity. Qed.

Lemma load_run w :
  load download symbols start_date end_date w =
  match download symbols start_date end_date with
  | Ok d => (Ok tt, {| env := set_data d (env w);
                       log := log w ++ [yf_download symbols start_date end_date;
                                        st_success] |})
  | Raise e => (Raise e, {| env := env w;
                            log := log w ++ [yf_download symbols start_date end_date] |})
  end.
Proof.
  unfold load. mrun.
  destruct (download symbols start_date end_date); simpl; [|done].
  mrun. unfold emit. simpl. by rewrite <- app_assoc.
Qed.

Lemma after_load_run w l0 :
  log w = l0 ++ [st_success] →
  match mapM (preview_of (data (env w))) symbols with
  | Raise e => fst (after_load float_repr pad symbols w) = Raise e ∧ log (snd (after_load float_repr pad symbols w)) = log w
  | Ok _ =>
      match mapM (row_of (data (env w))) symbols with
      | Raise e =>
          fst (after_load float_repr pad symbols w) = Raise e
          ∧ log (snd (after_load float_repr pad symbols w))
            = l0 ++ drop 1 (charts_log pad symbols start_date end_date (data (env w)))
      | Ok rows =>
          fst (after_load float_repr pad symbols w) = Ok tt
          ∧ log (snd (after_load float_repr pad symbols w))
            = l0 ++ drop 1 (charts_log pad symbols start_date end_date (data (env w)))
                 ++ export_log float_repr rows
      end
  end.
Proof.
  intros Hl. unfold after_load.
  rewrite run_bind, show_raw_data_run.
  destruct (mapM (preview_of _) symbols) as [frames|e] eqn:Hprev; [|done].
  assert (Hp : all_present (data (env w)) symbols) by eauto using mapM_preview_ok.
  rewrite mapM_preview_present in Hprev by done. injection Hprev as <-.
  rewrite run_bind, plot_line_run by done. simpl.
  rewrite run_bind, plot_line_run by done. simpl.
  rewrite run_bind, volume_chart_run by done. simpl.
  rewrite run_bind.
  edestruct (pct_chart_run) as (e1 & Hd1 & ->); [simpl; done|].
  simpl in Hd1. simpl.
  rewrite run_bind.
  edestruct (candlestick_chart_run) as (e2 & Hd2 & ->); [simpl; by rewrite Hd1|].
  simpl in Hd2. simpl. rewrite Hd1.
  rewrite run_bind.
  match goal with |- context [latest_snapshot symbols ?w] =>
    pose proof (latest_snapshot_run w) as Hsnap end.
  simpl in Hsnap. rewrite Hd2, Hd1 in Hsnap.
  destruct (mapM (row_of _) symbols) as [rows|e].
  - destruct Hsnap as (e3 & -> & Hd3 & Hdf). simpl.
    rewrite Hdf. split; [done|]. rewrite Hl.
    rewrite <- !app_assoc. reflexivity.
  - destruct Hsnap as (w' & -> & Hd3 & Hl3). simpl. split; [done|].
    rewrite Hl3. simpl. rewrite Hl. rewrite <- !app_assoc. reflexivity.
Qed.

End steps.

(** ** The script against its summary *)

Lemma after_load_same_data float_repr pad symbols :
  respects same_data (after_load float_repr pad symbols).
Proof.
  unfold after_load, show_raw_data, plot_line, volume_chart, pct_chart,
    candlestick_chart, latest_snapshot, snapshot_body, export_csv, export_pdf.
  frame.
Qed.

Section run.
Context (download : list string → Z → Z → result (gmap string Frame))
  (float_repr : float → string) (pad : bool) (symbols : list string)
  (start_date end_date : Z).

Abbreviation run := (run download float_repr pad symbols start_date end_date).
Abbreviation shown := (shown download float_repr pad symbols start_date end_date).

(** The script and its summary agree: same outcome, same log. *)
Lemma run_shown : fst run = fst shown ∧ log (snd run) = snd shown.
Proof.
  unfold App.run, main, App.shown.
  destruct symbols as [|s0 syms] eqn:Hsym; [done|]. rewrite <- Hsym.
  rewrite run_bind, load_run. simpl.
  destruct (download symbols start_date end_date) as [d|e]; [|done].
  match goal with |- context [after_load _ _ _ ?w] =>
    pose proof (after_load_run float_repr pad symbols start_date end_date w
                  [yf_download symbols start_date end_date] eq_refl) as H end.
  simpl in H.
  destruct (mapM (preview_of d) symbols); [|done].
  destruct (mapM (row_of d) symbols); done.
Qed.

Lemma run_data d :
  symbols ≠ [] →
  download symbols start_date end_date = Ok d →
  data (env (snd run)) = d.
Proof.
  intros Hne Hd. unfold App.run, main.
  destruct symbols as [|s0 syms]; [done|].
  rewrite run_bind, load_run, Hd.
  match goal with |- context [after_load _ _ _ ?w] =>
    apply (after_load_same_data float_repr pad (s0 :: syms) w) end.
Qed.
End run.

(** ** What the log of a run holds *)

Section log_facts.
Context (download : list string → Z → Z → result (gmap string Frame))
  (float_repr : float → string) (pad : bool) (symbols : list string)
  (start_date end_date : Z).

Abbreviation run := (run download float_repr pad symbols start_date end_date).
Abbreviation charts_log := (charts_log pad symbols start_date end_date).

(** With every ticker present the run gets to the snapshot loop, and
    goes on exactly when every row can be built. *)
Lemma run_present d :
  symbols ≠ [] →
  download symbols start_date end_date = Ok d →
  all_present d symbols →
  match mapM (row_of d) symbols with
  | Ok rows => fst run = Ok tt
               ∧ log (snd run) = charts_log d ++ export_log float_repr rows
  | Raise e => fst run = Raise e ∧ log (snd run) = charts_log d
  end.
Proof.
  intros Hne Hd Hp.
  destruct (run_shown download float_repr pad symbols start_date end_date)
    as [Hr Hl].
  unfold shown in Hr, Hl. destruct symbols as [|s0 syms] eqn:Hs; [done|].
  rewrite <- Hs in *. rewrite Hd, mapM_preview_present in Hr, Hl by done.
  destruct (mapM (row_of d) symbols); done.
Qed.

(** A snapshot in the log comes from a run that went through. *)
Lemma snapshots_run df :
  df ∈ snapshots (log (snd run)) →
  ∃ d, symbols ≠ []
       ∧ download symbols start_date end_date = Ok d
       ∧ mapM (row_of d) symbols = Ok df
       ∧ fst run = Ok tt
       ∧ log (snd run) = charts_log d ++ export_log float_repr df.
Proof.
  destruct (run_shown download float_repr pad symbols start_date end_date)
    as [Hr Hl].
  rewrite Hr, Hl. clear Hr Hl. unfold shown.
  destruct symbols as [|s0 syms] eqn:Hs; [set_solver|]. rewrite <- Hs.
  destruct (download symbols start_date end_date) as [d|e] eqn:Hd;
    [|set_solver].
  destruct (mapM (preview_of d) symbols); [|set_solver].
  destruct (mapM (row_of d) symbols) as [rows|e] eqn:Hrows; [|set_solver].
  simpl. intros ->%list_elem_of_singleton. exists d.
  split; [by rewrite Hs|done].
Qed.

Lemma csv_exports_run b :
  b ∈ csv_exports (log (snd run)) →
  ∃ df, snapshots (log (snd run)) = [df]
        ∧ b = encode_utf8 (to_csv float_repr df).
Proof.
  destruct (run_shown download float_repr pad symbols start_date end_date)
    as [Hr Hl].
  rewrite Hl. clear Hr Hl. unfold shown.
  destruct symbols as [|s0 syms] eqn:Hs; [set_solver|]. rewrite <- Hs.
  destruct (download symbols start_date end_date) as [d|e]; [|set_solver].
  destruct (mapM (preview_of d) symbols); [|set_solver].
  destruct (mapM (row_of d) symbols) as [rows|e]; [|set_solver].
  simpl. intros ->%list_elem_of_singleton. eauto.
Qed.

Lemma downloads_run :
  downloads (log (snd run)) =
  match symbols with
  | [] => []
  | _ :: _ => [(symbols, start_date, end_date)]
  end.
Proof.
  destruct (run_shown download float_repr pad symbols start_date end_date)
    as [Hr Hl].
  rewrite Hl. clear Hr Hl. unfold shown.
  destruct symbols as [|s0 syms] eqn:Hs; [done|]. rewrite <- Hs.
  destruct (download symbols start_date end_date) as [d|e]; [|done].
  destruct (mapM (preview_of d) symbols); [|done].
  destruct (mapM (row_of d) symbols) as [rows|e]; done.
Qed.

End log_facts.

(** Whatever happens in the snapshot loop, the five charts were shown
    before it. *)
Lemma run_charts_log
  (download : list string → Z → Z → result (gmap string Frame))
  (float_repr : float → string) (pad : bool) (symbols : list string)
  (start_date end_date : Z) (d : gmap string Frame) :
  symbols ≠ [] →
  download symbols start_date end_date = Ok d →
  all_present d symbols →
  ∃ rest, log (snd (run download float_repr pad symbols start_date end_date))
          = charts_log pad symbols start_date end_date d ++ rest.
Proof.
  intros Hne Hd Hp.
  pose proof (run_present download float_repr pad symbols start_date end_date
                d Hne Hd Hp) as H.
  destruct (mapM (row_of d) symbols) as [rows|e]; destruct H as [_ ->].
  - eauto.
  - exists []. by rewrite app_nil_r.
Qed.

Lemma pct_chart_shown
  (download : list string → Z → Z → result (gmap string Frame))
  (float_repr : float → string) (pad : bool) (symbols : list string)
  (start_date end_date : Z) (d : gmap string Frame) :
  symbols ≠ [] →
  download symbols start_date end_date = Ok d →
  all_present d symbols →
  chart "Daily % Change" "Change (%)" (pct_trace pad d <$> symbols)
  ∈ log (snd (run download float_repr pad symbols start_date end_date)).
Proof.
  intros Hne Hd Hp.
  destruct (run_charts_log download float_repr pad symbols start_date end_date
              d Hne Hd Hp) as [rest ->].
  apply elem_of_app. left. unfold charts_log.
  do 6 apply list_elem_of_further. apply list_elem_of_here.
Qed.

(** ** Statements that leave [data] alone *)

Lemma pct_chart_same_data pad symbols :
  respects same_data (pct_chart pad symbols).
Proof. unfold pct_chart. frame. Qed.

Lemma latest_snapshot_same_data symbols :
  respects same_data (latest_snapshot symbols).
Proof. unfold latest_snapshot, snapshot_body. frame. Qed.

(** ** The rows of the snapshot *)


Lemma mapM_elem_ok_inv {A B} (f : A → result B) xs ys y :
  mapM f xs = Ok ys → y ∈ ys → ∃ x, x ∈ xs ∧ f x = Ok y.
Proof.
  revert ys. induction xs as [|x' xs IH]; intros ys; simpl.
  - intros [= <-]. set_solver.
  - destruct (f x') as [y'|] eqn:Hx'; simpl; [|done].
    destruct (mapM f xs) as [ys'|]; simpl; [|done].
    intros [= <-] [->|Hy]%elem_of_cons.
    + exists x'. split; [set_solver|done].
    + destruct (IH ys' eq_refl Hy) as (x & ? & ?). exists x. split; [set_solver|done].
Qed.

Lemma row_of_ok d sym r :
  row_of d sym = Ok r →
  row_Symbol r = sym
  ∧ ∃ f rec, d !! sym = Some f ∧ last f = Some rec
    ∧ row_Latest_Price r = Np.round (Close rec) 2
    ∧ row_Opening_Price r = Np.round (Open rec) 2
    ∧ row_High r = Np.round (High rec) 2
    ∧ row_Low r = Np.round (Low rec) 2
    ∧ Np.int (Volume rec) = Ok (row_Volume r).
Proof.
  unfold row_of, getitem, iloc_last.
  destruct (d !! sym) as [f|] eqn:Hf; simpl; [|done].
  destruct (last f) as [rec|] eqn:Hl; simpl; [|done].
  destruct (Np.int (Volume rec)) as [v|] eqn:Hv; simpl; [|done].
  intros [= <-]. simpl. split; [done|]. by exists f, rec.
Qed.

Lemma row_of_symbols d xs rows :
  mapM (row_of d) xs = Ok rows → row_Symbol <$> rows = xs.
Proof.
  revert rows. induction xs as [|x xs IH]; intros rows; simpl.
  - by intros [= <-].
  - destruct (row_of d x) as [r|] eqn:Hx; simpl; [|done].
    destruct (mapM (row_of d) xs) as [rows'|]; simpl; [|done].
    intros [= <-]. simpl. apply row_of_ok in Hx as [-> _]. by rewrite IH.
Qed.


Lemma int_ok_trunc x z :
  Np.int x = Ok z →
  ∃ q, Np.value x = Some q
       ∧ z = if Qle_bool 0 q then Qfloor q else Qceiling q.
Proof.
  intros Hz. destruct (Np.value x) as [q|] eqn:Hq.
  - exists q. split; [done|]. apply int_trunc in Hq. congruence.
  - apply int_raises_iff in Hq as [e He]. congruence.
Qed.

(** The prices that lie exactly between two hundredths are the whole
    numbers plus 1/8, 3/8, 5/8 or 7/8.  Up to 2000 units [Np.round _ 2]
    sends each of them to the neighbour with an even last digit, and
    rounding half up sends the first and the third elsewhere. *)
Lemma round_exact_ties :
  forallb (λ m : Z,
    let u := of_uint63 (Uint63.of_Z m) in
    let cents (c : Z) :=
      PrimFloat.div (of_uint63 (Uint63.of_Z (100 * m + c)%Z)) 100%float in
    PrimFloat.eqb (Np.round (u + 0.125)%float 2) (cents 12%Z)
    && PrimFloat.eqb (Np.round (u + 0.375)%float 2) (cents 38%Z)
    && PrimFloat.eqb (Np.round (u + 0.625)%float 2) (cents 62%Z)
    && PrimFloat.eqb (Np.round (u + 0.875)%float 2) (cents 88%Z)
    && PrimFloat.eqb (Spec.round_half_up (u + 0.125)%float 2) (cents 13%Z)
    && PrimFloat.eqb (Spec.round_half_up (u + 0.625)%float 2) (cents 63%Z)
    && PrimFloat.ltb (cents 12%Z) (cents 13%Z)
    && PrimFloat.ltb (cents 62%Z) (cents 63%Z))
    (seqZ 0 2000)
  = true.
Proof. vm_compute. reflexivity. Qed.

(** ** The percent-change series *)

Section pct_facts.
Open Scope float_scope.
Context (pad : bool).

Lemma length_pct_of f : length (pct_of pad f) = length f.
Proof.
  unfold pct_of, smul, column. by rewrite length_fmap, length_pct_change, length_fmap.
Qed.

Lemma pct_of_first r f : pct_of pad (r :: f) !! 0%nat = Some nan.
Proof.
  unfold pct_of, column. rewrite lookup_smul, fmap_cons, pct_change_0. done.
Qed.

Lemma pct_of_next f i r0 r1 :
  f !! i = Some r0 → f !! S i = Some r1 →
  (pad = true → is_nan (Close r0) = false) →
  ∃ c, pct_of pad f !! S i = Some ((c / Close r0 - 1) * 100)
       ∧ (is_nan (Close r1) = false ∨ pad = false → c = Close r1).
Proof.
  intros H0 H1 Hn. unfold pct_of, column.
  destruct (pct_change_S pad (Close <$> f) i (Close r0) (Close r1))
    as (c & Hc & Hcc); [by rewrite list_lookup_fmap, H0
                       |by rewrite list_lookup_fmap, H1|done|].
  exists c. split; [|done]. by rewrite lookup_smul, Hc.
Qed.

Lemma lookup_points f i r v :
  f !! i = Some r → pct_of pad f !! i = Some v →
  zip (index f) (pct_of pad f) !! i = Some (Date r, v).
Proof.
  intros Hr Hv. apply lookup_zip_Some. split; [|done].
  unfold index. by rewrite list_lookup_fmap, Hr.
Qed.

End pct_facts.

(** ** Text facts *)

#[local] Arguments String.append : simpl nomatch.

Lemma decode_encode_char c s :
  Spec.decode_utf8 (encode_char c ++ s)
  = String c <$> Spec.decode_utf8 s.
Proof.
  destruct c as [[] [] [] [] [] [] [] []]; reflexivity.
Qed.

Lemma decode_encode_utf8 s : Spec.decode_utf8 (encode_utf8 s) = Some s.
Proof.
  induction s as [|c s IH]; [done|].
  simpl encode_utf8. rewrite decode_encode_char, IH. done.
Qed.

Lemma append_assoc' (s t u : string) : (s +:+ t) +:+ u = s +:+ (t +:+ u).
Proof. induction s as [|c s IH]; simpl; [done|]. by rewrite IH. Qed.

Lemma append_nil_r' (s : string) : s +:+ EmptyString = s.
Proof. induction s as [|c s IH]; simpl; [done|]. by rewrite IH. Qed.

Lemma snoc_append fld c s : Spec.snoc fld c +:+ s = fld +:+ String c s.
Proof. unfold Spec.snoc. by rewrite append_assoc'. Qed.

Section reader_facts.
Import Spec.

(** Inside quotes the reader undoes the doubling of the quotes. *)
Lemma reader_escape f fld rec rest :
  reader Quoted fld rec (escape f +:+ rest)
  = reader Quoted (fld +:+ f) rec rest.
Proof.
  revert fld. induction f as [|c f IH]; intros fld.
  - simpl. by rewrite append_nil_r'.
  - destruct (decide (c = dquote)) as [->|Hne].
    + change (escape (String dquote f))
        with (String dquote (String dquote (escape f))).
      change (reader Quoted fld rec
                (String dquote (String dquote (escape f)) +:+ rest))
        with (reader Quoted (snoc fld dquote) rec (escape f +:+ rest)).
      by rewrite IH, snoc_append.
    + simpl. rewrite bool_decide_eq_false_2 by done. simpl.
      rewrite bool_decide_eq_false_2 by done.
      by rewrite IH, snoc_append.
Qed.

(** Outside quotes a field without special characters is read up to the
    separator that follows it. *)
Lemma is_special_false c :
  is_special c = false →
  bool_decide (c = comma) = false ∧ bool_decide (c = dquote) = false
  ∧ bool_decide (c = LF) = false.
Proof.
  unfold is_special. intros H.
  repeat (apply orb_false_iff in H as [H ?]). done.
Qed.

Lemma reader_plain f fld rec st c rest :
  st = Start ∧ fld = EmptyString ∨ st = Unquoted →
  needs_quote f = false →
  c = comma ∨ c = LF →
  reader st fld rec (f +:+ String c rest)
  = if bool_decide (c = comma)
    then reader Start EmptyString (rec ++ [fld +:+ f]) rest
    else (rec ++ [fld +:+ f]) :: reader Start EmptyString [] rest.
Proof.
  revert st fld. induction f as [|a f IH]; intros st fld Hst Hq Hc.
  - rewrite append_nil_r'. simpl.
    assert (bool_decide (c = dquote) = false) as Hd
      by (destruct Hc as [-> | ->]; done).
    destruct Hst as [[-> ->]| ->]; simpl; rewrite ?Hd.
    + destruct Hc as [-> | ->]; done.
    + destruct Hc as [-> | ->]; done.
  - simpl in Hq. apply orb_false_iff in Hq as [Ha Hq].
    apply is_special_false in Ha as (Ha1 & Ha2 & Ha3).
    change (String a f +:+ String c rest)
      with (String a (f +:+ String c rest)).
    assert (reader st fld rec (String a (f +:+ String c rest))
            = reader Unquoted (snoc fld a) rec (f +:+ String c rest)) as ->.
    { destruct Hst as [[-> ->]| ->]; simpl; by rewrite ?Ha1, ?Ha2, ?Ha3. }
    rewrite IH by auto. by rewrite snoc_append.
Qed.

(** A written field, quoted or not, is read back as the field. *)
Lemma reader_field f rec c rest :
  c = comma ∨ c = LF →
  reader Start EmptyString rec (quote f +:+ String c rest)
  = if bool_decide (c = comma)
    then reader Start EmptyString (rec ++ [f]) rest
    else (rec ++ [f]) :: reader Start EmptyString [] rest.
Proof.
  intros Hc. unfold quote. destruct (needs_quote f) eqn:Hq.
  - simpl. rewrite append_assoc', reader_escape.
    destruct Hc as [-> | ->]; reflexivity.
  - rewrite reader_plain by auto. done.
Qed.

Lemma reader_joined fields rec rest :
  fields ≠ [] →
  reader Start EmptyString rec (join_fields fields +:+ String LF rest)
  = (rec ++ fields) :: reader Start EmptyString [] rest.
Proof.
  revert rec. induction fields as [|f fields IH]; intros rec Hne; [done|].
  destruct fields as [|f' fields].
  - simpl join_fields. rewrite reader_field by auto. done.
  - change (join_fields (f :: f' :: fields))
      with (quote f +:+ String comma (join_fields (f' :: fields))).
    rewrite append_assoc'.
    change (String comma (join_fields (f' :: fields)) +:+ String LF rest)
      with (String comma (join_fields (f' :: fields) +:+ String LF rest)).
    rewrite reader_field by auto.
    rewrite bool_decide_eq_true_2 by done.
    rewrite IH by done. by rewrite <- app_assoc.
Qed.

Lemma reader_record fields rec rest :
  fields ≠ [] →
  reader Start EmptyString rec (csv_record fields +:+ rest)
  = (rec ++ fields) :: reader Start EmptyString [] rest.
Proof.
  intros Hne. unfold csv_record. rewrite append_assoc'.
  by apply reader_joined.
Qed.

Lemma reader_records (records : list (list string)) :
  Forall (λ fields, fields ≠ []) records →
  read_csv (fold_right String.append EmptyString (csv_record <$> records))
  = records.
Proof.
  unfold read_csv. induction 1 as [|fields records Hne _ IH]; [done|].
  change (fold_right String.append EmptyString (csv_record <$> fields :: records))
    with (csv_record fields
          +:+ fold_right String.append EmptyString (csv_record <$> records)).
  rewrite reader_record by done. rewrite app_nil_l. f_equal. exact IH.
Qed.

End reader_facts.

Lemma read_csv_to_csv float_repr df :
  Spec.read_csv (to_csv float_repr df)
  = columns :: (csv_cells float_repr <$> df).
Proof.
  unfold to_csv. apply reader_records.
  constructor; [done|]. apply Forall_fmap, Forall_forall. done.
Qed.

(** ** The sample requests *)

Lemma all_present_only_AAPL : all_present only_AAPL ["AAPL"%string].
Proof.
  intros sym [->|Hsym]%elem_of_cons; [by eexists|].
  by apply elem_of_nil in Hsym.
Defined.


(* ===================================================================== *)
(** * The claims of the specification *)
(* ===================================================================== *)

(** ** C1: a ticker without rows *)




(** ** C2: length and dates of the percent-change series *)

(** C2, as stated, fails: for three trading days the percent-change
    series the chart draws has three entries, not two, and its first
    entry sits on the first date, with the value [nan]. *)
Lemma pct_series_keeps_the_first_date :
  let p := zip (index AAPL) (pct_of true AAPL) in
  length AAPL = 3%nat
  ∧ length p = 3%nat
  ∧ length p ≠ Nat.max 0 (length AAPL - 1)
  ∧ p !! 0%nat = Some (738521%Z, nan)
  ∧ length (Spec.derive AAPL) = 2%nat.
Proof. vm_compute. repeat split; try reflexivity. discriminate. Qed.

(** C2, amended: the run shows the chart of the percent changes, one
    trace per selected ticker, each drawing [pct_of] of the ticker's
    frame against the dates of that frame.  The series has the length
    of the frame and the same dates, entry by entry; the entry of the
    first date is there, and it is [nan], not zero. *)
Theorem pct_series_same_length_first_nan
  (download : list string → Z → Z → result (gmap string Frame))
  (float_repr : float → string) (pad : bool) (symbols : list string)
  (start_date end_date : Z) (d : gmap string Frame) :
  symbols ≠ [] →
  download symbols start_date end_date = Ok d →
  all_present d symbols →
  chart "Daily % Change" "Change (%)" (pct_trace pad d <$> symbols)
  ∈ log (snd (run download float_repr pad symbols start_date end_date))
  ∧ ∀ f : Frame,
      length (pct_of pad f) = length f
      ∧ fst <$> zip (index f) (pct_of pad f) = index f
      ∧ (∀ r, f !! 0%nat = Some r →
           zip (index f) (pct_of pad f) !! 0%nat = Some (Date r, nan)
           ∧ is_zero nan = false).
Proof.
  intros Hne Hd Hp. split; [by apply pct_chart_shown|]. intros f.
  split; [apply length_pct_of|]. split.
  - apply fst_zip. unfold index. rewrite length_fmap, length_pct_of. done.
  - intros r Hr. split; [|reflexivity].
    apply lookup_points; [done|].
    destruct f as [|r' f]; [done|]. apply pct_of_first.
Qed.

(** C2, at the sample request for AAPL alone. *)
Lemma pct_series_same_length_first_nan_witness :
  chart "Daily % Change" "Change (%)" (pct_trace true only_AAPL <$> ["AAPL"%string])
  ∈ log (snd (run (provider only_AAPL) render true ["AAPL"%string] 738521 738600))
  ∧ length (pct_of true AAPL) = length AAPL.
Proof.
  destruct (pct_series_same_length_first_nan (provider only_AAPL) render true
              ["AAPL"%string] 738521 738600 only_AAPL) as [H1 H2].
  - done.
  - reflexivity.
  - apply all_present_only_AAPL.
  - split; [exact H1|]. apply (H2 AAPL).
Defined.

(** ** C3: when the provider is called *)

(** C3, as the specification states it, fails: with a start date after
    the end date the provider is still called, once, with those dates,
    and the run goes through. *)
Lemma dates_out_of_order_are_fetched :
  let r := run (provider only_AAPL) render true ["AAPL"%string] 738600 738521 in
  (738600 > 738521)%Z
  ∧ downloads (log (snd r)) = [(["AAPL"%string], 738600%Z, 738521%Z)]
  ∧ fst r = Ok tt.
Proof. vm_compute. repeat split; reflexivity. Qed.

(** C3, amended: the provider is called exactly when the selection is
    not empty, then exactly once and with the dates as given, whatever
    their order; with an empty selection the run only shows the
    warning. *)
Theorem fetch_gated_by_selection_only
  (download : list string → Z → Z → result (gmap string Frame))
  (float_repr : float → string) (pad : bool) (symbols : list string)
  (start_date end_date : Z) :
  let r := run download float_repr pad symbols start_date end_date in
  downloads (log (snd r))
  = match symbols with
    | [] => []
    | _ :: _ => [(symbols, start_date, end_date)]
    end
  ∧ (symbols = [] → fst r = Ok tt ∧ log (snd r) = [st_warning]).
Proof.
  split; [apply downloads_run|]. intros ->. done.
Qed.

(** ** C4: the numbers of a snapshot row *)

(** C4, as stated, fails on the rounding: a latest close of 0.125 is
    shown as 0.12, where rounding half up gives 0.13. *)
Lemma snapshot_rounds_ties_to_even :
  let r := run (provider only_ties) render true ["AAPL"%string] 738521 738600 in
  Close <$> last ties = Some 0.125%float
  ∧ snapshots (log (snd r))
    = [[ {| row_Symbol := "AAPL"; row_Latest_Price := 0.12;
            row_Opening_Price := 0.38; row_High := 2.5; row_Low := -0.12;
            row_Volume := 1000 |} ]]
  ∧ Spec.round_half_up 0.125 2 = 0.13%float
  ∧ (0.12 <? 0.13)%float = true.
Proof. vm_compute. repeat split; reflexivity. Qed.

(** C4, amended: every row of a shown snapshot is built from the last
    row of its ticker's frame; its four prices are that row's close,
    open, high and low after [Np.round _ 2] (scale by 100, round to the
    nearest integer with ties to the even one, divide by 100), and its
    volume is that row's volume cut to its integer part, towards
    zero. *)
Theorem snapshot_row_numbers
  (download : list string → Z → Z → result (gmap string Frame))
  (float_repr : float → string) (pad : bool) (symbols : list string)
  (start_date end_date : Z) (df : list SnapshotRow) (row : SnapshotRow) :
  let r := run download float_repr pad symbols start_date end_date in
  df ∈ snapshots (log (snd r)) →
  row ∈ df →
  ∃ rec q,
    last (frame_of (data (env (snd r))) (row_Symbol row)) = Some rec
    ∧ row_Latest_Price row = Np.round (Close rec) 2
    ∧ row_Opening_Price row = Np.round (Open rec) 2
    ∧ row_High row = Np.round (High rec) 2
    ∧ row_Low row = Np.round (Low rec) 2
    ∧ Np.value (Volume rec) = Some q
    ∧ row_Volume row = if Qle_bool 0 q then Qfloor q else Qceiling q.
Proof.
  intros r (d & Hne & Hd & Hrows & _)%snapshots_run Hrow.
  unfold r. rewrite (run_data _ _ _ _ _ _ d Hne Hd).
  destruct (mapM_elem_ok_inv _ _ _ _ Hrows Hrow) as (sym & Hsym & Hr).
  apply row_of_ok in Hr
    as (-> & f & rec & Hf & Hlast & Hc & Ho & Hh & Hl & Hv).
  apply int_ok_trunc in Hv as (q & Hq & Hz).
  exists rec, q. unfold frame_of. rewrite Hf. done.
Qed.

(** C4, at a frame whose last row lies on rounding ties. *)
Lemma snapshot_row_numbers_witness :
  let r := run (provider only_ties) render true ["AAPL"%string] 738521 738600 in
  ∃ row rec q,
    last (frame_of (data (env (snd r))) (row_Symbol row)) = Some rec
    ∧ row_Latest_Price row = Np.round (Close rec) 2
    ∧ Np.value (Volume rec) = Some q
    ∧ row_Volume row = if Qle_bool 0 q then Qfloor q else Qceiling q.
Proof.
  set (row := {| row_Symbol := "AAPL"; row_Latest_Price := 0.12;
                 row_Opening_Price := 0.38; row_High := 2.5;
                 row_Low := -0.12; row_Volume := 1000 |}%float).
  destruct (snapshot_row_numbers (provider only_ties) render true
              ["AAPL"%string] 738521 738600 [row] row)
    as (rec & q & H1 & H2 & _ & _ & _ & H3 & H4).
  - vm_compute. apply list_elem_of_here.
  - apply list_elem_of_here.
  - exists row, rec, q. repeat split; assumption.
Defined.

(** ** C5: the value of the percent change *)

(** C5, as stated, fails: for the closes 100, 110, 99 the series is
    [nan], 10.000000000000009, -9.9999999999999982 (with or without
    padding), not the 10 and -10 that the formula of the specification
    gives. *)
Lemma pct_differs_from_the_formula :
  Close <$> AAPL = [100; 110; 99]%float
  ∧ pct_of true AAPL = [nan; 10.000000000000009; -9.9999999999999982]%float
  ∧ pct_of false AAPL = [nan; 10.000000000000009; -9.9999999999999982]%float
  ∧ snd <$> Spec.derive AAPL = [10; -10]%float
  ∧ (10 <? 10.000000000000009)%float = true
  ∧ (-10 <? -9.9999999999999982)%float = true.
Proof. vm_compute. repeat split; reflexivity. Qed.

(** C5, amended: the entry at position [i+1] is paired with the date of
    record [i+1], and its value is the quotient of the two closes, minus
    one, times 100, each operation rounded to binary64; with a padding
    pandas this is so when neither close is [nan]. *)
Theorem pct_is_ratio_minus_one (pad : bool) (f : Frame) (i : nat)
  (r0 r1 : DatedRecord) :
  f !! i = Some r0 →
  f !! S i = Some r1 →
  (pad = true → is_nan (Close r0) = false ∧ is_nan (Close r1) = false) →
  zip (index f) (pct_of pad f) !! S i
  = Some (Date r1, (Close r1 / Close r0 - 1) * 100)%float.
Proof.
  intros H0 H1 Hn.
  destruct (pct_of_next pad f i r0 r1 H0 H1) as (c & Hc & Hcc).
  { intros Hpad. by apply Hn. }
  apply lookup_points; [done|]. rewrite Hc, Hcc; [done|].
  destruct pad; [left; by apply Hn|by right].
Qed.

(** C5, at the first two days of the sample frame. *)
Lemma pct_is_ratio_minus_one_witness :
  zip (index AAPL) (pct_of true AAPL) !! 1%nat
  = Some (738522%Z, (110 / 100 - 1) * 100)%float.
Proof.
  apply (pct_is_ratio_minus_one true AAPL 0
           (day 738521 100 1000) (day 738522 110 1100)).
  - reflexivity.
  - reflexivity.
  - intros _. split; reflexivity.
Defined.

(** ** C6: the order of the rows *)




(** ** C7: a close of zero *)

(** C7: when the earlier close is zero, the run still shows the chart of
    the percent changes, and the entry for the later date is what the
    division gives, an infinity or [nan]: no finite value, and no zero,
    stands in for it. *)
Theorem zero_close_passes_non_finite
  (download : list string → Z → Z → result (gmap string Frame))
  (float_repr : float → string) (pad : bool) (symbols : list string)
  (start_date end_date : Z) (d : gmap string Frame) (sym : string)
  (i : nat) (r0 r1 : DatedRecord) :
  symbols ≠ [] →
  download symbols start_date end_date = Ok d →
  all_present d symbols →
  sym ∈ symbols →
  frame_of d sym !! i = Some r0 →
  frame_of d sym !! S i = Some r1 →
  (Close r0 =? 0)%float = true →
  chart "Daily % Change" "Change (%)" (pct_trace pad d <$> symbols)
  ∈ log (snd (run download float_repr pad symbols start_date end_date))
  ∧ pct_trace pad d sym ∈ pct_trace pad d <$> symbols
  ∧ ∃ c v, pct_of pad (frame_of d sym) !! S i = Some v
           ∧ v = ((c / Close r0 - 1) * 100)%float
           ∧ (is_nan (Close r1) = false ∨ pad = false → c = Close r1)
           ∧ is_finite v = false
           ∧ is_zero v = false.
Proof.
  intros Hne Hd Hp Hsym H0 H1 Hz.
  split; [by apply pct_chart_shown|].
  split; [by apply list_elem_of_fmap_2|].
  destruct (pct_of_next pad _ i r0 r1 H0 H1) as (c & Hc & Hcc).
  { intros _. by apply not_nan_of_eqb_zero. }
  exists c, ((c / Close r0 - 1) * 100)%float.
  split; [done|]. split; [done|]. split; [done|].
  split; [by apply div_zero_not_finite|by apply div_zero_not_zero].
Qed.

(** C7, at a frame whose first close is zero. *)
Lemma zero_close_passes_non_finite_witness :
  ∃ c v, pct_of true zero_close !! 1%nat = Some v
         ∧ v = ((c / 0 - 1) * 100)%float
         ∧ is_finite v = false.
Proof.
  destruct (zero_close_passes_non_finite (provider only_zero_close) render true
              ["AAPL"%string] 738521 738600 only_zero_close "AAPL"%string 0
              (day 738521 0 1000) (day 738522 5 1100))
    as (_ & _ & c & v & Hv & Hc & _ & Hfin & _).
  - done.
  - reflexivity.
  - intros sym [->|Hsym]%elem_of_cons; [by eexists|].
    by apply elem_of_nil in Hsym.
  - apply list_elem_of_here.
  - reflexivity.
  - reflexivity.
  - reflexivity.
  - exists c, v. split; [exact Hv|]. split; [exact Hc|exact Hfin].
Defined.

(** ** C8: the order of the snapshot rows *)



(** ** C9: the CSV export *)

(** C9: the bytes offered for download are the UTF-8 encoding of a text
    that reads back, as comma separated values, to the header record
    Symbol, Latest Price, Opening Price, High, Low, Volume followed by
    one record per row of the shown snapshot, in row order, each with
    the row's six cells in the order of the header. *)
Theorem csv_export_reads_back
  (download : list string → Z → Z → result (gmap string Frame))
  (float_repr : float → string) (pad : bool) (symbols : list string)
  (start_date end_date : Z) (b : list byte) :
  let r := run download float_repr pad symbols start_date end_date in
  b ∈ csv_exports (log (snd r)) →
  ∃ df text,
    snapshots (log (snd r)) = [df]
    ∧ Spec.decode_utf8 b = Some text
    ∧ Spec.read_csv text
      = ["Symbol"; "Latest Price"; "Opening Price"; "High"; "Low"; "Volume"]
        :: ((λ row, [row_Symbol row;
                     csv_float float_repr (row_Latest_Price row);
                     csv_float float_repr (row_Opening_Price row);
                     csv_float float_repr (row_High row);
                     csv_float float_repr (row_Low row);
                     pretty (row_Volume row)]) <$> df)
    ∧ length (Spec.read_csv text) = S (length df).
Proof.
  intros r (df & Hdf & ->)%csv_exports_run.
  exists df, (to_csv float_repr df).
  split; [done|]. split; [apply decode_encode_utf8|].
  rewrite read_csv_to_csv. split; [reflexivity|].
  simpl. by rewrite length_fmap.
Qed.

(** C9, at the sample request for AAPL alone. *)
Lemma csv_export_reads_back_witness :
  let r := run (provider only_AAPL) render true ["AAPL"%string] 738521 738600 in
  ∃ b df text,
    b ∈ csv_exports (log (snd r))
    ∧ snapshots (log (snd r)) = [df]
    ∧ Spec.decode_utf8 b = Some text
    ∧ length (Spec.read_csv text) = S (length df).
Proof.
  set (b := encode_utf8 (to_csv render
              [ {| row_Symbol := "AAPL"; row_Latest_Price := 99;
                   row_Opening_Price := 99; row_High := 99; row_Low := 99;
                   row_Volume := 1200 |} ])).
  destruct (csv_export_reads_back (provider only_AAPL) render true
              ["AAPL"%string] 738521 738600 b)
    as (df & text & H1 & H2 & _ & H3).
  - vm_compute. apply list_elem_of_here.
  - exists b, df, text. split; [|by repeat split].
    vm_compute. apply list_elem_of_here.
Defined.

(** ** C10: the downloaded frames are only read *)

(** C10: the percent-change chart and the snapshot step, and all the
    statements after the download together, leave [data] as it was,
    whether they return or raise; so at the end of a run [data] is what
    the provider returned, and what the run showed of the frames (the
    preview, the five charts, the snapshot) is computed from that one
    mapping. *)
Theorem raw_data_is_only_read
  (download : list string → Z → Z → result (gmap string Frame))
  (float_repr : float → string) (pad : bool) (symbols : list string)
  (start_date end_date : Z) :
  (∀ w, data (env (snd (pct_chart pad symbols w))) = data (env w))
  ∧ (∀ w, data (env (snd (latest_snapshot symbols w))) = data (env w))
  ∧ (∀ w, data (env (snd (after_load float_repr pad symbols w)))
          = data (env w))
  ∧ ∀ d, symbols ≠ [] →
         download symbols start_date end_date = Ok d →
         let r := run download float_repr pad symbols start_date end_date in
         data (env (snd r)) = d
         ∧ (all_present d symbols →
            ∃ rest, log (snd r)
                    = charts_log pad symbols start_date end_date d ++ rest
                    ∧ (rest = []
                       ∨ ∃ rows, mapM (row_of d) symbols = Ok rows
                                 ∧ rest = export_log float_repr rows)).
Proof.
  split; [|split; [|split]].
  - apply (pct_chart_same_data pad symbols).
  - apply (latest_snapshot_same_data symbols).
  - apply (after_load_same_data float_repr pad symbols).
  - intros d Hne Hd r. split; [by apply run_data|]. intros Hp.
    pose proof (run_present download float_repr pad symbols start_date
                  end_date d Hne Hd Hp) as H.
    fold r in H. destruct (mapM (row_of d) symbols) as [rows|e].
    + destruct H as [_ ->]. exists (export_log float_repr rows).
      split; [done|]. right. by exists rows.
    + destruct H as [_ ->]. exists []. rewrite app_nil_r. auto.
Qed.

(** C10, at the sample request for AAPL alone: after the run [data] is
    what the provider returned. *)
Lemma raw_data_is_only_read_witness :
  data (env (snd (run (provider only_AAPL) render true ["AAPL"%string]
                    738521 738600)))
  = only_AAPL.
Proof.
  destruct (raw_data_is_only_read (provider only_AAPL) render true
              ["AAPL"%string] 738521 738600) as (_ & _ & _ & H).
  apply (H only_AAPL); [done|reflexivity].
Defined.

(* ===================================================================== *)
(** * Further properties of the script *)
(* ===================================================================== *)

Import Views Cases.

(** ** Which floats [int()] accepts *)

Section int_facts.
Open Scope float_scope.

Lemma is_nan_Prim2SF x : is_nan x = true ↔ Prim2SF x = S754_nan.
Proof.
  split.
  - intros H. unfold Prim2SF. by rewrite H.
  - intros H. unfold is_nan. rewrite FloatAxioms.eqb_spec, H. reflexivity.
Qed.

Lemma is_infinity_Prim2SF x :
  is_infinity x = true ↔ ∃ s, Prim2SF x = S754_infinity s.
Proof.
  unfold is_infinity. rewrite FloatAxioms.eqb_spec, abs_spec.
  change (Prim2SF infinity) with (S754_infinity false).
  destruct (Prim2SF x) as [s|s| |s m e]; simpl.
  - split; [discriminate|intros [? ?]; discriminate].
  - split; eauto.
  - split; [discriminate|intros [? ?]; discriminate].
  - split; [discriminate|intros [? ?]; discriminate].
Qed.

Lemma int_raises x e :
  Np.int x = Raise e ↔
  is_nan x = true ∧ e = ValueError
  ∨ is_infinity x = true ∧ e = OverflowError.
Proof.
  rewrite is_nan_Prim2SF, is_infinity_Prim2SF. unfold Np.int.
  destruct (Prim2SF x) as [s|s| |s m ex]; split.
  all: try (intros [[? ?]|[[? ?] ?]]; discriminate).
  all: try discriminate.
  - intros [= <-]. right. eauto.
  - intros [[? ?]|[_ ->]]; [discriminate|done].
  - intros [= <-]. by left.
  - intros [[_ ->]|[[? ?] ?]]; [done|discriminate].
Qed.

Lemma int_accepts_finite x : is_finite x = true → is_ok (Np.int x) = true.
Proof.
  intros Hfin. destruct (Np.int x) as [z|e] eqn:Hint; [done|].
  apply int_raises in Hint as [[H _]|[H _]];
    unfold is_finite in Hfin; rewrite H in Hfin; simpl in Hfin;
    [discriminate|]. rewrite orb_true_r in Hfin. discriminate.
Qed.

End int_facts.

(** ** Where a list comprehension stops *)

Lemma mapM_raise_split {A B} (f : A → result B) xs e :
  mapM f xs = Raise e →
  ∃ pre x post, xs = pre ++ x :: post
                ∧ is_ok (mapM f pre) = true ∧ f x = Raise e.
Proof.
  induction xs as [|x xs IH]; simpl; [done|].
  destruct (f x) as [y|e'] eqn:Hx; simpl.
  - destruct (mapM f xs) as [ys|e'] eqn:Hxs; simpl; [done|].
    intros [= ->]. destruct (IH eq_refl) as (pre & x' & post & -> & Hpre & Hx').
    exists (x :: pre), x', post. split; [done|]. split; [|done].
    simpl. rewrite Hx. simpl. by destruct (mapM f pre).
  - intros [= ->]. by exists [], x, xs.
Qed.

Lemma mapM_first_raise {A B} (f : A → result B) pre x post e :
  is_ok (mapM f pre) = true → f x = Raise e →
  mapM f (pre ++ x :: post) = Raise e.
Proof.
  intros Hpre Hx. induction pre as [|p pre IH]; simpl in *.
  - by rewrite Hx.
  - destruct (f p) as [y|]; simpl in *; [|done].
    destruct (mapM f pre) as [ys|]; simpl in *; [|done].
    by rewrite IH.
Qed.

Lemma mapM_is_ok {A B} (f : A → result B) xs :
  (∀ x, x ∈ xs → is_ok (f x) = true) → is_ok (mapM f xs) = true.
Proof.
  induction xs as [|x xs IH]; intros H; simpl; [done|].
  specialize (H x (list_elem_of_here _ _)) as Hx.
  destruct (f x); simpl; [|done].
  rewrite <- IH by (intros; apply H; by apply list_elem_of_further).
  by destruct (mapM f xs).
Qed.

(** ** X1: the provider fails *)

(** X1: when the provider call raises, the run raises the same
    exception at once: the call is the only thing in the log (no success
    message, no preview, chart, snapshot or export), and no variable of
    the script was assigned. *)
Theorem provider_failure_shows_nothing
  (download : list string → Z → Z → result (gmap string Frame))
  (float_repr : float → string) (pad : bool) (symbols : list string)
  (start_date end_date : Z) (e : exn) :
  symbols ≠ [] →
  download symbols start_date end_date = Raise e →
  run download float_repr pad symbols start_date end_date
  = (Raise e, {| env := env_init;
                 log := [yf_download symbols start_date end_date] |}).
Proof.
  intros Hne Hd. unfold run, main.
  destruct symbols as [|s0 syms]; [done|].
  rewrite run_bind, load_run, Hd. reflexivity.
Qed.

(** X1, at a provider that always fails. *)
Lemma provider_failure_shows_nothing_witness :
  run failing render true Widgets.default 738521 738600
  = (Raise ProviderError,
     {| env := env_init;
        log := [yf_download Widgets.default 738521 738600] |}).
Proof.
  apply (provider_failure_shows_nothing failing render true Widgets.default
           738521 738600 ProviderError); [done|reflexivity].
Defined.

(** ** X2: a selected ticker is missing from the download *)

Lemma run_preview_raises
  (download : list string → Z → Z → result (gmap string Frame))
  (float_repr : float → string) (pad : bool) (symbols : list string)
  (start_date end_date : Z) (d : gmap string Frame) (e : exn) :
  symbols ≠ [] →
  download symbols start_date end_date = Ok d →
  mapM (preview_of d) symbols = Raise e →
  let r := run download float_repr pad symbols start_date end_date in
  fst r = Raise e
  ∧ log (snd r) = [yf_download symbols start_date end_date; st_success].
Proof.
  intros Hne Hd Hprev r.
  destruct (run_shown download float_repr pad symbols start_date end_date)
    as [Hr Hl].
  fold r in Hr, Hl. rewrite Hr, Hl. unfold shown.
  destruct symbols as [|s0 syms]; [done|].
  by rewrite Hd, Hprev.
Qed.

(** X2: when the downloaded frame lacks a selected ticker, the run
    raises [KeyError] for the first such ticker in selection order,
    while building the preview: the success message was shown, and no
    preview, chart, snapshot or export is. *)
Theorem missing_ticker_raises_KeyError
  (download : list string → Z → Z → result (gmap string Frame))
  (float_repr : float → string) (pad : bool)
  (pre : list string) (sym : string) (post : list string)
  (start_date end_date : Z) (d : gmap string Frame) :
  let symbols := pre ++ sym :: post in
  download symbols start_date end_date = Ok d →
  all_present d pre →
  d !! sym = None →
  let r := run download float_repr pad symbols start_date end_date in
  fst r = Raise (KeyError sym)
  ∧ log (snd r) = [yf_download symbols start_date end_date; st_success]
  ∧ data (env (snd r)) = d.
Proof.
  intros symbols Hd Hpre Hsym r.
  assert (symbols ≠ []) as Hne by (unfold symbols; by destruct pre).
  assert (mapM (preview_of d) symbols = Raise (KeyError sym)) as Hprev.
  { apply mapM_first_raise.
    - by rewrite mapM_preview_present.
    - unfold preview_of, getitem. by rewrite Hsym. }
  destruct (run_preview_raises download float_repr pad symbols start_date
              end_date d (KeyError sym) Hne Hd Hprev) as [Hr Hl].
  split; [done|]. split; [done|]. by apply run_data.
Qed.

(** X2, at a request for AAPL and MSFT answered with AAPL alone. *)
Lemma missing_ticker_raises_KeyError_witness :
  let r := run (provider only_AAPL) render true Widgets.default
             738521 738600 in
  fst r = Raise (KeyError "MSFT")
  ∧ log (snd r) = [yf_download Widgets.default 738521 738600; st_success]
  ∧ data (env (snd r)) = only_AAPL.
Proof.
  apply (missing_ticker_raises_KeyError (provider only_AAPL) render true
           ["AAPL"%string] "MSFT" [] 738521 738600 only_AAPL).
  - reflexivity.
  - apply all_present_only_AAPL.
  - reflexivity.
Defined.

(** ** X3, X4: what an exception of a run means *)

Lemma preview_of_raises d sym e :
  preview_of d sym = Raise e ↔ d !! sym = None ∧ e = KeyError sym.
Proof.
  unfold preview_of, getitem. destruct (d !! sym) as [f|]; simpl.
  - split; [done|]. intros [? _]. done.
  - split; [by intros [= <-]|by intros [_ ->]].
Qed.

Lemma row_of_raises d sym e :
  row_of d sym = Raise e ↔
  d !! sym = None ∧ e = KeyError sym
  ∨ d !! sym = Some [] ∧ e = IndexError
  ∨ ∃ f rec, d !! sym = Some f ∧ last f = Some rec
             ∧ (is_nan (Volume rec) = true ∧ e = ValueError
                ∨ is_infinity (Volume rec) = true ∧ e = OverflowError).
Proof.
  unfold row_of, getitem, iloc_last.
  destruct (d !! sym) as [f|] eqn:Hf; simpl.
  - destruct (last f) as [rec|] eqn:Hl; simpl.
    + destruct (Np.int (Volume rec)) as [v|e'] eqn:Hv; simpl.
      * split; [done|]. intros [[? _]|[[[= ->] _]|H]]; [done|done|].
        destruct H as (f' & rec' & [= <-] & Hl' & H).
        rewrite Hl in Hl'. injection Hl' as <-.
        assert (Np.int (Volume rec) = Raise e) as Hr by by apply int_raises.
        congruence.
      * split.
        -- intros [= <-]. right. right. exists f, rec.
           split; [done|]. split; [done|]. by apply int_raises.
        -- intros [[? _]|[[[= ->] _]|H]]; [done|done|].
           destruct H as (f' & rec' & [= <-] & Hl' & H).
           rewrite Hl in Hl'. injection Hl' as <-.
           apply int_raises in H. congruence.
    + assert (f = []) as Hnil by (by apply last_None). subst f. split.
      * intros [= <-]. right. by left.
      * intros [[? _]|[[_ ->]|H]]; [done|done|].
        by destruct H as (f' & rec' & [= <-] & ? & _).
  - split.
    + intros [= <-]. by left.
    + intros [[_ ->]|[[? _]|H]]; [done|done|].
      by destruct H as (f' & rec' & ? & _).
Qed.

(** X3: a run raises only for one of five reasons.  Either the provider
    call raised that exception; or it is the [KeyError] of a selected
    ticker the downloaded frame lacks; or [IndexError], for a selected
    ticker whose frame has no rows; or [ValueError], for one whose last
    row has a [nan] volume; or [OverflowError], for one whose last row
    has an infinite volume. *)
Theorem exception_has_a_cause
  (download : list string → Z → Z → result (gmap string Frame))
  (float_repr : float → string) (pad : bool) (symbols : list string)
  (start_date end_date : Z) (e : exn) :
  fst (run download float_repr pad symbols start_date end_date) = Raise e →
  download symbols start_date end_date = Raise e
  ∨ ∃ d sym,
      download symbols start_date end_date = Ok d
      ∧ sym ∈ symbols
      ∧ (d !! sym = None ∧ e = KeyError sym
         ∨ d !! sym = Some [] ∧ e = IndexError
         ∨ ∃ f rec, d !! sym = Some f ∧ last f = Some rec
                    ∧ (is_nan (Volume rec) = true ∧ e = ValueError
                       ∨ is_infinity (Volume rec) = true
                         ∧ e = OverflowError)).
Proof.
  destruct (run_shown download float_repr pad symbols start_date end_date)
    as [-> _].
  unfold shown. destruct symbols as [|s0 syms] eqn:Hs; [done|]. rewrite <- Hs.
  destruct (download symbols start_date end_date) as [d|e'];
    [|intros [= ->]; by left].
  destruct (mapM (preview_of d) symbols) as [?|e'] eqn:Hprev.
  - destruct (mapM (row_of d) symbols) as [?|e'] eqn:Hrows; [done|].
    intros [= ->]. right.
    apply mapM_raise_split in Hrows as (pre & sym & post & Hsplit & _ & Hsym).
    exists d, sym. split; [done|]. split; [rewrite Hsplit; set_solver|].
    by apply row_of_raises.
  - intros [= ->]. right.
    apply mapM_raise_split in Hprev as (pre & sym & post & Hsplit & _ & Hsym).
    exists d, sym. split; [done|]. split; [rewrite Hsplit; set_solver|].
    left. by apply preview_of_raises.
Qed.

(** X3, at a request for AAPL and a ticker whose rows are all [nan]. *)
Lemma exception_has_a_cause_witness :
  ∃ e,
    fst (run (provider with_nan_rows) render true
           ["AAPL"%string; "XXXX"%string] 738521 738600) = Raise e
    ∧ (provider with_nan_rows ["AAPL"%string; "XXXX"%string]
         738521%Z 738600%Z = Raise e
       ∨ ∃ d sym,
           provider with_nan_rows ["AAPL"%string; "XXXX"%string]
             738521%Z 738600%Z = Ok d
           ∧ sym ∈ ["AAPL"%string; "XXXX"%string]
           ∧ (d !! sym = None ∧ e = KeyError sym
              ∨ d !! sym = Some [] ∧ e = IndexError
              ∨ ∃ f rec, d !! sym = Some f ∧ last f = Some rec
                         ∧ (is_nan (Volume rec) = true ∧ e = ValueError
                            ∨ is_infinity (Volume rec) = true
                              ∧ e = OverflowError))).
Proof.
  exists ValueError. split; [reflexivity|].
  apply (exception_has_a_cause (provider with_nan_rows) render true
           ["AAPL"%string; "XXXX"%string] 738521 738600 ValueError).
  reflexivity.
Defined.

Lemma row_of_is_ok d sym rec :
  d !! sym = Some (frame_of d sym) →
  last (frame_of d sym) = Some rec →
  is_finite (Volume rec) = true →
  is_ok (row_of d sym) = true.
Proof.
  intros Hf Hl Hfin. unfold row_of, getitem, iloc_last.
  rewrite Hf. simpl. rewrite Hl. simpl.
  apply int_accepts_finite in Hfin.
  by destruct (Np.int (Volume rec)).
Qed.

(** X4: the snapshot loop stops at the first selected ticker whose row
    it cannot build.  When every ticker selected before [sym] has a last
    row with a finite volume, the run raises [IndexError] if the frame
    of [sym] has no rows, [ValueError] if the volume of its last row is
    [nan], and [OverflowError] if that volume is infinite; by then the
    preview and the five charts were shown, and nothing after them. *)
Theorem snapshot_stops_at_first_bad_row
  (download : list string → Z → Z → result (gmap string Frame))
  (float_repr : float → string) (pad : bool)
  (pre : list string) (sym : string) (post : list string)
  (start_date end_date : Z) (d : gmap string Frame) (f : Frame) :
  let symbols := pre ++ sym :: post in
  download symbols start_date end_date = Ok d →
  all_present d symbols →
  (∀ s, s ∈ pre → ∃ rec, last (frame_of d s) = Some rec
                         ∧ is_finite (Volume rec) = true) →
  d !! sym = Some f →
  let r := run download float_repr pad symbols start_date end_date in
  let stopped (e : exn) :=
    fst r = Raise e
    ∧ log (snd r) = charts_log pad symbols start_date end_date d in
  (f = [] → stopped IndexError)
  ∧ (∀ rec, last f = Some rec → is_nan (Volume rec) = true →
       stopped ValueError)
  ∧ (∀ rec, last f = Some rec → is_infinity (Volume rec) = true →
       stopped OverflowError).
Proof.
  intros symbols Hd Hp Hpre Hf r stopped.
  assert (symbols ≠ []) as Hne by (unfold symbols; by destruct pre).
  assert (∀ e, row_of d sym = Raise e → stopped e) as Hstop.
  { intros e He.
    pose proof (run_present download float_repr pad symbols start_date
                  end_date d Hne Hd Hp) as H.
    assert (mapM (row_of d) symbols = Raise e) as Hrows.
    { apply mapM_first_raise; [|done]. apply mapM_is_ok. intros s Hs.
      destruct (Hpre s Hs) as (rec & Hl & Hfin).
      apply (row_of_is_ok d s rec); [|done|done].
      destruct (Hp s) as [fs Hfs]; [unfold symbols; set_solver|].
      unfold frame_of. by rewrite Hfs. }
    by rewrite Hrows in H. }
  split; [|split].
  - intros ->. apply Hstop, row_of_raises. right. by left.
  - intros rec Hl Hnan. apply Hstop, row_of_raises. right. right.
    exists f, rec. auto.
  - intros rec Hl Hinf. apply Hstop, row_of_raises. right. right.
    exists f, rec. auto.
Qed.

(** X4, at a request for AAPL and a ticker whose rows are all [nan]. *)
Lemma snapshot_stops_at_first_bad_row_witness :
  let r := run (provider with_nan_rows) render true
             ["AAPL"%string; "XXXX"%string] 738521 738600 in
  fst r = Raise ValueError
  ∧ log (snd r)
    = charts_log true ["AAPL"%string; "XXXX"%string] 738521 738600
        with_nan_rows.
Proof.
  destruct (snapshot_stops_at_first_bad_row (provider with_nan_rows) render
              true ["AAPL"%string] "XXXX" [] 738521 738600 with_nan_rows
              all_nan) as (_ & H & _).
  - reflexivity.
  - intros s Hs.
    apply elem_of_cons in Hs as [->|Hs]; [by eexists|].
    apply elem_of_cons in Hs as [->|Hs]; [by eexists|].
    by apply elem_of_nil in Hs.
  - intros s Hs.
    apply elem_of_cons in Hs as [->|Hs]; [|by apply elem_of_nil in Hs].
    eexists. split; reflexivity.
  - reflexivity.
  - apply (H _ eq_refl). reflexivity.
Defined.

(** ** X5: the five charts *)

Lemma run_figures
  (download : list string → Z → Z → result (gmap string Frame))
  (float_repr : float → string) (pad : bool) (symbols : list string)
  (start_date end_date : Z) (d : gmap string Frame) :
  symbols ≠ [] →
  download symbols start_date end_date = Ok d →
  all_present d symbols →
  figures (log (snd (run download float_repr pad symbols start_date end_date)))
  = figures (charts_log pad symbols start_date end_date d).
Proof.
  intros Hne Hd Hp.
  pose proof (run_present download float_repr pad symbols start_date
                end_date d Hne Hd Hp) as H.
  destruct (mapM (row_of d) symbols) as [rows|e]; destruct H as [_ ->];
    [|done].
  unfold figures. rewrite omap_app. change (omap _ (export_log float_repr rows)) with (@nil Figure). by rewrite app_nil_r.
Qed.

Lemma trace_names (tr : string → Trace) (xs : list string) :
  (∀ s, trace_name (tr s) = s) → trace_name <$> (tr <$> xs) = xs.
Proof.
  intros H. induction xs as [|x xs IH]; [done|].
  rewrite !fmap_cons, H. f_equal. exact IH.
Qed.

Lemma traces_aligned (tr : string → Trace) (xs : list string) :
  (∀ s, trace_aligned (tr s)) → Forall trace_aligned (tr <$> xs).
Proof. intros H. apply Forall_fmap, Forall_forall. intros s _. apply H. Qed.

Lemma length_column col (f : Frame) : length (column col f) = length (index f).
Proof. unfold column, index. by rewrite !length_fmap. Qed.

Lemma chart_traces_aligned pad d s :
  trace_aligned (line_trace Open d s)
  ∧ trace_aligned (line_trace Close d s)
  ∧ trace_aligned (volume_trace d s)
  ∧ trace_aligned (pct_trace pad d s)
  ∧ trace_aligned (candle_trace d s).
Proof.
  unfold trace_aligned, line_trace, volume_trace, pct_trace, candle_trace.
  cbn [sc_x sc_y cs_x cs_open cs_high cs_low cs_close].
  rewrite !length_column, length_pct_of. unfold index.
  rewrite length_fmap. done.
Qed.

(** X5: when every selected ticker is in the download, the run shows
    five charts, titled Opening Price, Closing Price, Volume Traded,
    Daily % Change and Candlestick View, in this order.  Each has exactly
    one trace per selected ticker, in selection order and named after
    the ticker, also for a ticker without rows; and every trace carries
    as many values in each of its series as it has dates. *)
Theorem charts_one_trace_per_ticker
  (download : list string → Z → Z → result (gmap string Frame))
  (float_repr : float → string) (pad : bool) (symbols : list string)
  (start_date end_date : Z) (d : gmap string Frame) :
  symbols ≠ [] →
  download symbols start_date end_date = Ok d →
  all_present d symbols →
  let r := run download float_repr pad symbols start_date end_date in
  fig_title <$> figures (log (snd r))
  = ["Opening Price"; "Closing Price"; "Volume Traded"; "Daily % Change";
     "Candlestick View"]%string
  ∧ ∀ g, g ∈ figures (log (snd r)) →
         trace_name <$> fig_traces g = symbols
         ∧ Forall trace_aligned (fig_traces g).
Proof.
  intros Hne Hd Hp r. unfold r.
  rewrite (run_figures _ _ _ _ _ _ d Hne Hd Hp).
  split; [reflexivity|]. intros g Hg.
  unfold charts_log, figures, chart in Hg. simpl in Hg.
  repeat (apply elem_of_cons in Hg as [->|Hg];
          [cbn [fig_traces]; split;
           [apply trace_names; intros; reflexivity
           |apply traces_aligned; intros s;
            apply (chart_traces_aligned pad d s)]|]).
  by apply elem_of_nil in Hg.
Qed.

(** X5, at a request for AAPL and a ticker without rows. *)
Lemma charts_one_trace_per_ticker_witness :
  let r := run (provider with_empty) render true
             ["AAPL"%string; "XXXX"%string] 738521 738600 in
  fig_title <$> figures (log (snd r))
  = ["Opening Price"; "Closing Price"; "Volume Traded"; "Daily % Change";
     "Candlestick View"]%string
  ∧ ∀ g, g ∈ figures (log (snd r)) →
         trace_name <$> fig_traces g = ["AAPL"%string; "XXXX"%string]
         ∧ Forall trace_aligned (fig_traces g).
Proof.
  apply (charts_one_trace_per_ticker (provider with_empty) render true
           ["AAPL"%string; "XXXX"%string] 738521 738600 with_empty).
  - done.
  - reflexivity.
  - intros s Hs.
    apply elem_of_cons in Hs as [->|Hs]; [by eexists|].
    apply elem_of_cons in Hs as [->|Hs]; [by eexists|].
    by apply elem_of_nil in Hs.
Defined.

(** ** X6: the preview of the raw data *)







(** ** X7: prices and volumes that are not finite *)

Section non_finite_facts.
Open Scope float_scope.

Lemma non_finite_cases x :
  is_finite x = false → x = nan ∨ x = infinity ∨ x = neg_infinity.
Proof.
  unfold is_finite. intros H%negb_false_iff.
  apply orb_true_iff in H as [H|H].
  - apply is_nan_Prim2SF in H. left.
    rewrite <- (SF2Prim_Prim2SF x), H. reflexivity.
  - apply is_infinity_Prim2SF in H as [s H]. right.
    rewrite <- (SF2Prim_Prim2SF x), H. destruct s; auto.
Qed.

Lemma round_non_finite x : is_finite x = false → Np.round x 2 = x.
Proof.
  intros [-> | [-> | ->]]%non_finite_cases; reflexivity.
Qed.

Lemma int_ok_finite x z : Np.int x = Ok z → is_finite x = true.
Proof.
  intros Hz. destruct (is_finite x) eqn:Hfin; [done|].
  apply non_finite_cases in Hfin as [-> | [-> | ->]]; discriminate.
Qed.

End non_finite_facts.

(** X7: rounding lets a price that is not finite through: in a shown
    snapshot a [nan] or infinite close, open, high or low of the last
    row appears unchanged, and does not end the run.  The volume of that
    last row is always finite, since [int()] raises otherwise. *)
Theorem non_finite_prices_are_shown
  (download : list string → Z → Z → result (gmap string Frame))
  (float_repr : float → string) (pad : bool) (symbols : list string)
  (start_date end_date : Z) (df : list SnapshotRow) (row : SnapshotRow) :
  let r := run download float_repr pad symbols start_date end_date in
  df ∈ snapshots (log (snd r)) →
  row ∈ df →
  ∃ rec,
    last (frame_of (data (env (snd r))) (row_Symbol row)) = Some rec
    ∧ is_finite (Volume rec) = true
    ∧ (is_finite (Close rec) = false → row_Latest_Price row = Close rec)
    ∧ (is_finite (Open rec) = false → row_Opening_Price row = Open rec)
    ∧ (is_finite (High rec) = false → row_High row = High rec)
    ∧ (is_finite (Low rec) = false → row_Low row = Low rec).
Proof.
  intros r (d & Hne & Hd & Hrows & _)%snapshots_run Hrow.
  unfold r. rewrite (run_data _ _ _ _ _ _ d Hne Hd).
  destruct (mapM_elem_ok_inv _ _ _ _ Hrows Hrow) as (sym & Hsym & Hr).
  apply row_of_ok in Hr
    as (-> & f & rec & Hf & Hlast & -> & -> & -> & -> & Hv).
  exists rec. unfold frame_of. rewrite Hf. split; [done|].
  split; [by eapply int_ok_finite|].
  repeat split; apply round_non_finite.
Qed.

(** X7, at a frame whose last close is [nan]: the snapshot shows
    [nan]. *)
Lemma non_finite_prices_are_shown_witness :
  let r := run (provider only_nan_close) render true ["AAPL"%string]
             738521 738600 in
  ∃ df row rec,
    df ∈ snapshots (log (snd r)) ∧ row ∈ df
    ∧ last (frame_of (data (env (snd r))) (row_Symbol row)) = Some rec
    ∧ is_finite (Volume rec) = true
    ∧ row_Latest_Price row = nan.
Proof.
  set (row := {| row_Symbol := "AAPL"; row_Latest_Price := nan;
                 row_Opening_Price := 101; row_High := 102; row_Low := 99;
                 row_Volume := 1100 |}%float).
  assert ([row] ∈ snapshots (log (snd (run (provider only_nan_close) render
                                         true ["AAPL"%string] 738521 738600))))
    as Hdf by (vm_compute; apply list_elem_of_here).
  destruct (non_finite_prices_are_shown (provider only_nan_close) render true
              ["AAPL"%string] 738521 738600 [row] row Hdf
              (list_elem_of_here _ _))
    as (rec & Hlast & Hvol & _).
  exists [row], row, rec. split; [exact Hdf|].
  split; [apply list_elem_of_here|]. split; [exact Hlast|].
  split; [exact Hvol|reflexivity].
Defined.

(** ** X8: the percent change across a missing close *)

Section gap_facts.
Open Scope float_scope.

Lemma nan_of_is_nan x : is_nan x = true → x = nan.
Proof.
  intros H%is_nan_Prim2SF. rewrite <- (SF2Prim_Prim2SF x), H. reflexivity.
Qed.

Lemma nan_div y : nan / y = nan.
Proof.
  apply Prim2SF_inj. rewrite div_spec.
  change (Prim2SF nan) with S754_nan. reflexivity.
Qed.

Lemma lookup_ffill_from_gap prev xs i p c :
  xs !! i = Some p → is_nan p = false →
  xs !! S i = Some c → is_nan c = true →
  ffill_from prev xs !! S i = Some p.
Proof.
  revert prev i. induction xs as [|x xs IH]; intros prev i; [done|].
  destruct i as [|i]; simpl.
  - intros [= ->] Hp Hc Hnan. rewrite Hp. simpl.
    destruct xs as [|c' xs]; [done|]. simpl in Hc. injection Hc as ->.
    simpl. by rewrite Hnan.
  - intros Hp Hpn Hc Hcn. destruct (is_nan x); simpl; by eapply IH.
Qed.

End gap_facts.

(** X8: a close that is missing ([nan]) between two known closes.  A
    pandas that pads computes the change of the missing day from the
    last known close against itself, and the change of the next day
    against that last known close; a pandas that does not pad gives
    [nan] on both days. *)
Theorem pct_across_a_missing_close (f : Frame) (i : nat)
  (r0 r1 r2 : DatedRecord) :
  f !! i = Some r0 →
  f !! S i = Some r1 →
  f !! S (S i) = Some r2 →
  is_nan (Close r0) = false →
  is_nan (Close r1) = true →
  is_nan (Close r2) = false →
  pct_of true f !! S i = Some ((Close r0 / Close r0 - 1) * 100)%float
  ∧ pct_of true f !! S (S i) = Some ((Close r2 / Close r0 - 1) * 100)%float
  ∧ pct_of false f !! S i = Some nan
  ∧ pct_of false f !! S (S i) = Some nan.
Proof.
  intros H0 H1 H2 Hn0 Hn1 Hn2.
  assert ((Close <$> f) !! i = Some (Close r0)) as C0
    by by rewrite list_lookup_fmap, H0.
  assert ((Close <$> f) !! S i = Some (Close r1)) as C1
    by by rewrite list_lookup_fmap, H1.
  assert ((Close <$> f) !! S (S i) = Some (Close r2)) as C2
    by by rewrite list_lookup_fmap, H2.
  assert (ffill (Close <$> f) !! i = Some (Close r0)) as F0
    by by apply lookup_ffill_from.
  assert (ffill (Close <$> f) !! S i = Some (Close r0)) as F1
    by by eapply lookup_ffill_from_gap.
  assert (ffill (Close <$> f) !! S (S i) = Some (Close r2)) as F2
    by by apply lookup_ffill_from.
  unfold pct_of, column. rewrite !lookup_smul. unfold pct_change.
  rewrite !lookup_zip_with.
  rewrite (lookup_shift_S _ _ _ _ F0 F1), (lookup_shift_S _ _ _ _ F1 F2).
  rewrite (lookup_shift_S _ _ _ _ C0 C1), (lookup_shift_S _ _ _ _ C1 C2).
  rewrite F1, F2, C1, C2. simpl.
  rewrite (nan_of_is_nan _ Hn1), nan_div, div_nan. done.
Qed.

(** X8, at three days whose middle close is missing. *)
Lemma pct_across_a_missing_close_witness :
  pct_of true gap = [nan; 0; 10.000000000000009]%float
  ∧ pct_of true gap !! 1%nat = Some ((100 / 100 - 1) * 100)%float
  ∧ pct_of false gap !! 1%nat = Some nan
  ∧ pct_of false gap !! 2%nat = Some nan.
Proof.
  split; [reflexivity|].
  destruct (pct_across_a_missing_close gap 0
              (day 738521 100 1000)
              {| Date := 738522; Open := 101; High := 102; Low := 99;
                 Close := nan; Volume := 1100 |}%float
              (day 738523 110 1200))
    as (H1 & _ & H3 & H4); try reflexivity.
  split; [exact H1|]. split; [exact H3|exact H4].
Defined.

(** ** X9: the csv of the tickers on offer *)

Section plain_facts.

Lemma needs_quote_pretty_N_char n : is_special (pretty_N_char n) = false.
Proof. unfold pretty_N_char. repeat case_match; reflexivity. Qed.

Lemma needs_quote_pretty_N_go x s :
  needs_quote s = false → needs_quote (pretty_N_go x s) = false.
Proof.
  revert s. induction (N.lt_wf_0 x) as [x _ IH]; intros s Hs.
  destruct (decide (x = 0)%N) as [->|Hx].
  - by rewrite pretty_N_go_0.
  - rewrite pretty_N_go_step by lia. apply IH.
    + apply N.div_lt; lia.
    + simpl. by rewrite needs_quote_pretty_N_char.
Qed.

Lemma needs_quote_pretty_N (n : N) : needs_quote (pretty n) = false.
Proof.
  unfold pretty, pretty_N. case_decide; [done|].
  by apply needs_quote_pretty_N_go.
Qed.

Lemma needs_quote_pretty_Z (z : Z) : needs_quote (pretty z) = false.
Proof.
  destruct z as [|p|p]; [done| |].
  - apply (needs_quote_pretty_N (Npos p)).
  - change (pretty (Z.neg p)) with (String "-" (pretty (N.pos p))).
    simpl. apply (needs_quote_pretty_N (Npos p)).
Qed.

Lemma needs_quote_options sym :
  sym ∈ Widgets.options → needs_quote sym = false.
Proof.
  unfold Widgets.options. rewrite !elem_of_cons, elem_of_nil.
  intros H. repeat (destruct H as [->|H]; [reflexivity|]). done.
Qed.

Lemma join_fields_plain fields :
  Forall (λ f, needs_quote f = false) fields →
  join_fields fields = join_plain fields.
Proof.
  induction 1 as [|f fs Hf Hfs IH]; [done|].
  simpl. unfold quote. rewrite Hf, IH. done.
Qed.

Lemma csv_cells_plain float_repr row :
  (∀ x, needs_quote (float_repr x) = false) →
  needs_quote (row_Symbol row) = false →
  Forall (λ f, needs_quote f = false) (csv_cells float_repr row).
Proof.
  intros Hrepr Hsym. unfold csv_cells, csv_float.
  repeat constructor; try done; try (case_match; done).
  apply needs_quote_pretty_Z.
Qed.

End plain_facts.

(** X9: with tickers taken from the options of the sidebar, and a float
    rendering that writes no comma, double quote or line feed, the csv
    writer quotes nothing: the download is the utf-8 encoding of the
    plain records, the header first, the cells joined by commas. *)
Theorem csv_of_listed_tickers_is_unquoted
  (download : list string → Z → Z → result (gmap string Frame))
  (float_repr : float → string) (pad : bool) (symbols : list string)
  (start_date end_date : Z) (b : list byte) :
  let r := run download float_repr pad symbols start_date end_date in
  (∀ sym, sym ∈ symbols → sym ∈ Widgets.options) →
  (∀ x, needs_quote (float_repr x) = false) →
  b ∈ csv_exports (log (snd r)) →
  ∃ df, snapshots (log (snd r)) = [df]
        ∧ row_Symbol <$> df = symbols
        ∧ b = encode_utf8
                (fold_right String.append EmptyString
                   (plain_record <$> (columns :: (csv_cells float_repr <$> df)))).
Proof.
  intros r Hopts Hrepr (df & Hdf & ->)%csv_exports_run.
  assert (df ∈ snapshots (log (snd r))) as Hin
    by (unfold r; rewrite Hdf; apply list_elem_of_here).
  apply snapshots_run in Hin as (d & _ & _ & Hrows & _).
  pose proof (row_of_symbols _ _ _ Hrows) as Hsyms.
  exists df. split; [exact Hdf|]. split; [exact Hsyms|].
  f_equal. unfold to_csv. f_equal.
  apply Forall_fmap_ext_1. constructor.
  - reflexivity.
  - apply Forall_fmap, Forall_forall. intros row Hrow. simpl.
    unfold csv_record, plain_record. f_equal. apply join_fields_plain.
    apply csv_cells_plain; [done|]. apply needs_quote_options, Hopts.
    rewrite <- Hsyms. by apply list_elem_of_fmap_2.
Qed.

Lemma needs_quote_render x : needs_quote (render x) = false.
Proof.
  unfold render. destruct (Np.int x); [apply needs_quote_pretty_Z|done].
Qed.

(** X9, at the sample request. *)
Lemma csv_of_listed_tickers_is_unquoted_witness :
  let r := run (provider only_AAPL) render true ["AAPL"%string]
             738521 738600 in
  ∃ b df,
    b ∈ csv_exports (log (snd r))
    ∧ snapshots (log (snd r)) = [df]
    ∧ row_Symbol <$> df = ["AAPL"%string]
    ∧ b = encode_utf8
            (fold_right String.append EmptyString
               (plain_record <$> (columns :: (csv_cells render <$> df)))).
Proof.
  intros r.
  pose (b := hd [] (csv_exports (log (snd r)))).
  assert (b ∈ csv_exports (log (snd r))) as Hin
    by (vm_compute; apply list_elem_of_here).
  destruct (csv_of_listed_tickers_is_unquoted (provider only_AAPL) render true
              ["AAPL"%string] 738521 738600 b) as (df & H1 & H2 & H3).
  - intros sym ->%list_elem_of_singleton. apply list_elem_of_here.
  - apply needs_quote_render.
  - exact Hin.
  - exact (ex_intro _ b (ex_intro _ df (conj Hin (conj H1 (conj H2 H3))))).
Defined.

(** ** X10: the table of the report *)

Section table_facts.
Import Report.
Variables w l_margin font_size : float.
Variable float_repr : float → string.





End table_facts.




(** ** X11: the two downloads *)




(** ** X12: a run that raises exports nothing *)


